(** * The Shopify theme client ([src/shopify/theme_client.go])

    A shallow embedding of the theme client: the response decoder
    ([unmarshalResponse]), the error aggregator ([toMessages], [toSentence])
    and the client operations, which run against an injected HTTP transport
    and file filter.  Operations are state-passing computations over the
    transport's state and a log of the requests sent to it. *)

From Stdlib Require Import ZArith String Ascii List Lia.
From stdpp Require Import prelude sorting gmap strings pretty.

Set Warnings "-register-all".

Local Open Scope string_scope.
Local Open Scope list_scope.
Local Open Scope nat_scope.

(** ** Go preliminaries *)

(** The zero value of a Go type. *)
Class Zero (A : Type) := zero : A.
Global Hint Mode Zero ! : typeclass_instances.

Global Instance string_zero : Zero string := "".
Global Instance int64_zero : Zero Z := 0%Z.
Global Instance bool_zero : Zero bool := false.
Global Instance slice_zero {A} : Zero (list A) := [].
Global Instance map_zero {V} : Zero (gmap string V) := (∅ : gmap string V).

(** [error] values.  The package's sentinel errors are distinct objects
    (compared by identity in Go), [errors_New] builds a fresh error from a
    message, the two [encoding/json] errors are the ones [json.Unmarshal]
    reports, and [TransportError] stands for whatever the HTTP collaborator
    or a body stream reports. *)
Inductive error : Type :=
  | ErrCriticalFile
  | ErrNotPartOfTheme
  | ErrMalformedResponse
  | ErrZipPathRequired
  | ErrInfoWithoutThemeID
  | ErrPublishWithoutThemeID
  | ErrThemeNotFound
  | ErrShopDomainNotFound
  | ErrMissingAssetName
  | ErrThemeNameRequired
  | errors_New (msg : string)
  | SyntaxError
  | UnmarshalTypeError (field : string)
  | TransportError (msg : string).

Global Instance error_eq_dec : EqDecision error.
Proof. solve_decision. Defined.

(** The text of each error ([err.Error()]). *)
Definition Error (e : error) : string :=
  match e with
  | ErrCriticalFile =>
      "this file is critical and removing it would cause your theme to become non-functional"
  | ErrNotPartOfTheme => "this file is not part of your theme"
  | ErrMalformedResponse => "received a malformed response"
  | ErrZipPathRequired => "theme zip path is required"
  | ErrInfoWithoutThemeID => "cannot get info without a theme id"
  | ErrPublishWithoutThemeID => "cannot publish a theme without a theme id set"
  | ErrThemeNotFound => "requested theme was not found"
  | ErrShopDomainNotFound => "provided myshopify domain does not exist"
  | ErrMissingAssetName => "asset has no name so could not be processes"
  | ErrThemeNameRequired => "theme name is required to create a theme"
  | errors_New msg => msg
  | SyntaxError => "invalid character looking for beginning of value"
  | UnmarshalTypeError field => "json: cannot unmarshal value into Go struct field " +:+ field
  | TransportError msg => msg
  end.

(** [strings.Contains]: [substr] occurs somewhere in [s]. *)
Fixpoint strings_Contains (s substr : string) : bool :=
  String.prefix substr s ||
  match s with
  | EmptyString => false
  | String _ s' => strings_Contains s' substr
  end.

(** [strings.Join], following the library's case split on the number of
    elements. *)
Fixpoint strings_Join (elems : list string) (sep : string) : string :=
  match elems with
  | [] => ""
  | [e] => e
  | e :: rest => e +:+ sep +:+ strings_Join rest sep
  end.

(** [fmt.Sprintf("%d", n)] for an integer. *)
Definition fmt_Sprintf_d (n : Z) : string := pretty n.

(** ** [encoding/json], as far as this package uses it *)

(** A JSON text.  Number literals are kept apart by whether they are integer
    literals, since only those can be stored into an [int64]. *)
Inductive json : Type :=
  | JNull
  | JBool (b : bool)
  | JInt (n : Z)
  | JFloat (literal : string)
  | JString (s : string)
  | JArray (elems : list json)
  | JObject (members : list (string * json)).

(** The bytes of a response body as [json.Unmarshal] sees them: either they
    are not a JSON text at all, or they are the text of a JSON value. *)
Inductive bytes : Type :=
  | Garbage (raw : string)
  | Text (v : json).

(** Storing a JSON value into a Go value of type [A], given the value that is
    there already.  A value of the wrong JSON type leaves the target as it is
    and reports an [UnmarshalTypeError]; decoding goes on with the rest. *)
Class Unmarshaler (A : Type) := store : json → A → A * option error.
Global Hint Mode Unmarshaler ! : typeclass_instances.

(** Only the first error of a decode is kept. *)
Definition saveError (saved new : option error) : option error :=
  match saved with
  | Some e => Some e
  | None => new
  end.

Global Instance string_unmarshal : Unmarshaler string := λ v cur,
  match v with
  | JString s => (s, None)
  | JNull => (cur, None)
  | _ => (cur, Some (UnmarshalTypeError "string"))
  end.

Definition int64_min : Z := (- 2 ^ 63)%Z.
Definition int64_max : Z := (2 ^ 63 - 1)%Z.

Global Instance int64_unmarshal : Unmarshaler Z := λ v cur,
  match v with
  | JInt n =>
      if ((int64_min <=? n) && (n <=? int64_max))%Z then (n, None)
      else (cur, Some (UnmarshalTypeError "int64"))
  | JNull => (cur, None)
  | _ => (cur, Some (UnmarshalTypeError "int64"))
  end.

Global Instance bool_unmarshal : Unmarshaler bool := λ v cur,
  match v with
  | JBool b => (b, None)
  | JNull => (cur, None)
  | _ => (cur, Some (UnmarshalTypeError "bool"))
  end.

(** A JSON array replaces the slice; each element is stored into a fresh zero
    value. *)
Fixpoint store_elems {A} `{Unmarshaler A, Zero A} (elems : list json)
    : list A * option error :=
  match elems with
  | [] => ([], None)
  | v :: rest =>
      let '(a, e) := store v zero in
      let '(tl, e') := store_elems rest in
      (a :: tl, saveError e e')
  end.

Global Instance slice_unmarshal {A} `{Unmarshaler A, Zero A} : Unmarshaler (list A) :=
  λ v cur,
  match v with
  | JArray elems => store_elems elems
  | JNull => ([], None)
  | _ => (cur, Some (UnmarshalTypeError "slice"))
  end.

(** A JSON object is stored into a map member by member, a later duplicate
    key overwriting an earlier one. *)
Fixpoint store_members {V} `{Unmarshaler V, Zero V}
    (members : list (string * json)) (m : gmap string V)
    : gmap string V * option error :=
  match members with
  | [] => (m, None)
  | (k, v) :: rest =>
      let '(elem, e) := store v zero in
      let '(m', e') := store_members rest (<[k := elem]> m) in
      (m', saveError e e')
  end.

Global Instance map_unmarshal {V} `{Unmarshaler V, Zero V} : Unmarshaler (gmap string V) :=
  λ v cur,
  match v with
  | JObject members => store_members members cur
  | JNull => (∅, None)
  | _ => (cur, Some (UnmarshalTypeError "map"))
  end.

(** Struct fields are found by their JSON name, an exact match first and a
    case-insensitive one otherwise; members with no field are skipped. *)
Definition toLower (c : ascii) : ascii :=
  let n := N_of_ascii c in
  if ((65 <=? n) && (n <=? 90))%N then ascii_of_N (n + 32) else c.

Fixpoint lower (s : string) : string :=
  match s with
  | EmptyString => EmptyString
  | String c s' => String (toLower c) (lower s')
  end.

Definition field_store (S : Type) : Type := json → S → S * option error.

Definition field {S A} `{Unmarshaler A} (name : string)
    (get : S → A) (set : A → S → S) : string * field_store S :=
  (name, λ v s, let '(a, e) := store v (get s) in (set a s, e)).

Definition find_field {S} (fields : list (string * field_store S)) (key : string)
    : option (field_store S) :=
  match List.find (λ f, String.eqb (fst f) key) fields with
  | Some f => Some (snd f)
  | None =>
      snd <$> List.find (λ f, String.eqb (lower (fst f)) (lower key)) fields
  end.

Fixpoint store_fields {S} (fields : list (string * field_store S))
    (members : list (string * json)) (s : S) : S * option error :=
  match members with
  | [] => (s, None)
  | (k, v) :: rest =>
      match find_field fields k with
      | Some st =>
          let '(s', e) := st v s in
          let '(s'', e') := store_fields fields rest s' in
          (s'', saveError e e')
      | None => store_fields fields rest s
      end
  end.

Definition struct_store {S} (fields : list (string * field_store S)) : Unmarshaler S :=
  λ v cur,
  match v with
  | JObject members => store_fields fields members cur
  | JNull => (cur, None)
  | _ => (cur, Some (UnmarshalTypeError "struct"))
  end.

(** [json.Unmarshal(data, &v)]: a syntax check of the whole input first, which
    leaves [v] untouched when it fails, then the store. *)
Definition json_Unmarshal {A} `{Unmarshaler A} (data : bytes) (v : A)
    : A * option error :=
  match data with
  | Garbage _ => (v, Some SyntaxError)
  | Text j => store j v
  end.

(** ** Resources and wire shapes *)

(** Theme represents a shopify theme. *)
Record Theme : Type := mkTheme {
  Theme_ID : Z;
  Theme_Name : string;
  Theme_Role : string;
  Theme_Previewable : bool;
  Theme_Processing : bool;
}.

(** Shop information for the domain. *)
Record Shop : Type := mkShop {
  Shop_ID : Z;
  Shop_Name : string;
  Shop_City : string;
  Shop_Country : string;
  Shop_Desc : string;
}.

(** Modelled from the spec: the [Asset] struct is declared in another file of
    the package.  The spec gives it a [Key] (its path within the theme), the
    content carried as [Value] or [Attachment], and a [Checksum]. *)
Record Asset : Type := mkAsset {
  Key : string;
  Value : string;
  Attachment : string;
  Checksum : string;
}.

Global Instance Theme_zero : Zero Theme := mkTheme 0%Z "" "" false false.
Global Instance Shop_zero : Zero Shop := mkShop 0%Z "" "" "" "".
Global Instance Asset_zero : Zero Asset := mkAsset "" "" "" "".

Record themeResponse : Type := mkThemeResponse {
  tr_Theme : Theme;
  tr_Errors : gmap string (list string);
}.

Record themesResponse : Type := mkThemesResponse {
  Themes_ : list Theme;
}.

Record assetResponse : Type := mkAssetResponse {
  ar_Asset : Asset;
  ar_Errors : gmap string (list string);
}.

Record assetsResponse : Type := mkAssetsResponse {
  Assets : list Asset;
}.

Record reqErr : Type := mkReqErr {
  re_Errors : string;
}.

Global Instance themeResponse_zero : Zero themeResponse := mkThemeResponse zero zero.
Global Instance themesResponse_zero : Zero themesResponse := mkThemesResponse zero.
Global Instance assetResponse_zero : Zero assetResponse := mkAssetResponse zero zero.
Global Instance assetsResponse_zero : Zero assetsResponse := mkAssetsResponse zero.
Global Instance reqErr_zero : Zero reqErr := mkReqErr zero.

(** The struct tags. *)
Global Instance Theme_unmarshal : Unmarshaler Theme := struct_store [
  field "id" Theme_ID (λ x t, mkTheme x (Theme_Name t) (Theme_Role t) (Theme_Previewable t) (Theme_Processing t));
  field "name" Theme_Name (λ x t, mkTheme (Theme_ID t) x (Theme_Role t) (Theme_Previewable t) (Theme_Processing t));
  field "role" Theme_Role (λ x t, mkTheme (Theme_ID t) (Theme_Name t) x (Theme_Previewable t) (Theme_Processing t));
  field "previewable" Theme_Previewable (λ x t, mkTheme (Theme_ID t) (Theme_Name t) (Theme_Role t) x (Theme_Processing t));
  field "processing" Theme_Processing (λ x t, mkTheme (Theme_ID t) (Theme_Name t) (Theme_Role t) (Theme_Previewable t) x)
].

Global Instance Shop_unmarshal : Unmarshaler Shop := struct_store [
  field "id" Shop_ID (λ x s, mkShop x (Shop_Name s) (Shop_City s) (Shop_Country s) (Shop_Desc s));
  field "name" Shop_Name (λ x s, mkShop (Shop_ID s) x (Shop_City s) (Shop_Country s) (Shop_Desc s));
  field "city" Shop_City (λ x s, mkShop (Shop_ID s) (Shop_Name s) x (Shop_Country s) (Shop_Desc s));
  field "country" Shop_Country (λ x s, mkShop (Shop_ID s) (Shop_Name s) (Shop_City s) x (Shop_Desc s));
  field "description" Shop_Desc (λ x s, mkShop (Shop_ID s) (Shop_Name s) (Shop_City s) (Shop_Country s) x)
].

Global Instance Asset_unmarshal : Unmarshaler Asset := struct_store [
  field "key" Key (λ x a, mkAsset x (Value a) (Attachment a) (Checksum a));
  field "value" Value (λ x a, mkAsset (Key a) x (Attachment a) (Checksum a));
  field "attachment" Attachment (λ x a, mkAsset (Key a) (Value a) x (Checksum a));
  field "checksum" Checksum (λ x a, mkAsset (Key a) (Value a) (Attachment a) x)
].

Global Instance themeResponse_unmarshal : Unmarshaler themeResponse := struct_store [
  field "theme" tr_Theme (λ x r, mkThemeResponse x (tr_Errors r));
  field "errors" tr_Errors (λ x r, mkThemeResponse (tr_Theme r) x)
].

Global Instance themesResponse_unmarshal : Unmarshaler themesResponse := struct_store [
  field "themes" Themes_ (λ x _, mkThemesResponse x)
].

Global Instance assetResponse_unmarshal : Unmarshaler assetResponse := struct_store [
  field "asset" ar_Asset (λ x r, mkAssetResponse x (ar_Errors r));
  field "errors" ar_Errors (λ x r, mkAssetResponse (ar_Asset r) x)
].

Global Instance assetsResponse_unmarshal : Unmarshaler assetsResponse := struct_store [
  field "assets" Assets (λ x _, mkAssetsResponse x)
].

Global Instance reqErr_unmarshal : Unmarshaler reqErr := struct_store [
  field "errors" re_Errors (λ x _, mkReqErr x)
].

(** ** The response decoder and the error aggregator *)

(** A response body ([io.ReadCloser]): what reading it to the end gives, and
    what closing it reports. *)
Record ReadCloser : Type := mkBody {
  ReadAll : bytes + error;
  Close : option error;
}.

(** [unmarshalResponse(body, data)], returning the target along with the
    error.  The flat-error shape is decoded by the instance [UR], which the
    client resolves to [reqErr_unmarshal]. *)
Definition unmarshalResponse {A} {UA : Unmarshaler A} {UR : Unmarshaler reqErr}
    (body : ReadCloser) (data : A) : A * option error :=
  match ReadAll body with
  | inr _ => (data, Some ErrMalformedResponse)
  | inl reqBody =>
      match Close body with
      | Some err => (data, Some err)
      | None =>
          let re : reqErr := zero in
          let '(data, mainErr) := json_Unmarshal reqBody data in
          let '(re, basicErr) := json_Unmarshal reqBody re in
          match mainErr, basicErr with
          | Some _, Some _ => (data, Some ErrMalformedResponse)
          | _, _ =>
              if 0 <? String.length (re_Errors re)
              then (data, Some (errors_New (re_Errors re)))
              else (data, None)
          end
      end
  end.

(** [toMessages]: every message of every attribute, prefixed with the
    attribute.  Go leaves the order in which a map is ranged over unspecified;
    here it is the order of [map_to_list]. *)
Definition toMessages (a : gmap string (list string)) : list string :=
  foldl (λ out '(attr, errs),
           foldl (λ out err, out ++ [attr +:+ " " +:+ err]) out errs)
        [] (map_to_list a).

(** The slice [a[:n]] and the element [a[i]] of a slice that is long enough. *)
Definition slice_to {A} (a : list A) (n : nat) : list A := take n a.
Definition at_index (a : list string) (i : nat) : string := default "" (a !! i).

Definition toSentence (a : list string) : string :=
  match length a with
  | 0 => ""
  | 1 => at_index a 0
  | 2 => at_index a 0 +:+ " and " +:+ at_index a 1
  | _ =>
      strings_Join (slice_to a (length a - 1)) ", " +:+ ", and "
        +:+ at_index a (length a - 1)
  end.

(** ** [net/url]: query encoding *)

Definition upperhex (n : N) : ascii :=
  default "0"%char (list_ascii_of_string "0123456789ABCDEF" !! N.to_nat n).

(** [shouldEscape] in query-component mode: letters, digits and [-_.~] are
    kept, every other byte is escaped. *)
Definition shouldEscape (c : ascii) : bool :=
  let n := N_of_ascii c in
  negb (((97 <=? n) && (n <=? 122)) || ((65 <=? n) && (n <=? 90))
        || ((48 <=? n) && (n <=? 57))
        || (n =? 45) || (n =? 95) || (n =? 46) || (n =? 126))%N.

Fixpoint url_QueryEscape (s : string) : string :=
  match s with
  | EmptyString => EmptyString
  | String c s' =>
      if shouldEscape c then
        if Ascii.eqb c " " then String "+" (url_QueryEscape s')
        else
          let n := N_of_ascii c in
          String "%" (String (upperhex (n / 16)) (String (upperhex (n mod 16))
            (url_QueryEscape s')))
      else String c (url_QueryEscape s')
  end.

(** [url.Values.Encode] for values set with [Set] (one value per key): the
    pairs in ascending key order, joined by an ampersand. *)
Definition url_Values_Encode (v : gmap string string) : string :=
  strings_Join
    ((λ k, url_QueryEscape k +:+ "=" +:+ url_QueryEscape (default "" (v !! k)))
       <$> merge_sort String.le (fst <$> map_to_list v))
    "&".

(** ** The collaborators *)

(** Modelled from the spec: [file.Filter] belongs to another package; the
    spec gives it the predicate [Match(key)], true for a key to leave out of
    listings. *)
Record Filter : Type := mkFilter {
  Match : string → bool;
}.

(** What the client hands to [Post] and [Put] as the request body:
    [{"theme": t}] or [{"asset": a}]. *)
Inductive Payload : Type :=
  | ThemePayload (t : Theme)
  | AssetPayload (a : Asset).

Record Response : Type := mkResponse {
  StatusCode : Z;
  Body : ReadCloser;
}.

(** The [httpAdapter] interface, over the state [conn] of whatever implements
    it: each method gives a response or an error and moves the state on. *)
Class httpAdapter (conn : Type) : Type := {
  Get : string → conn → (Response + error) * conn;
  Post : string → Payload → conn → (Response + error) * conn;
  Put : string → Payload → conn → (Response + error) * conn;
  Delete : string → conn → (Response + error) * conn;
}.

(** The calls made on the adapter. *)
Inductive Call : Type :=
  | GET (path : string)
  | POST (path : string) (body : Payload)
  | PUT (path : string) (body : Payload)
  | DELETE (path : string).

(** Client is the interactor with the shopify server.  Its [http] field is a
    reference to the adapter, whose state lives in the [World] the
    operations run in. *)
Record Client : Type := mkClient {
  themeID : string;
  filter : Filter;
}.

(** ** Running against the transport *)

Record World (conn : Type) : Type := mkWorld {
  net : conn;
  sent : list Call;
}.
Arguments mkWorld {conn} _ _.
Arguments net {conn} _.
Arguments sent {conn} _.

(** How a call ends: it returns, it panics (a Go run-time error), or the
    model's recursion budget ran out before it did either. *)
Inductive outcome (W A : Type) : Type :=
  | Returns (a : A) (w : W)
  | Panics (msg : string) (w : W)
  | OutOfFuel.
Arguments Returns {W A} _ _.
Arguments Panics {W A} _ _.
Arguments OutOfFuel {W A}.

(** The world a call leaves when it ends, by a return or by a panic. *)
Definition final_world {W A} (o : outcome W A) : option W :=
  match o with
  | Returns _ w => Some w
  | Panics _ w => Some w
  | OutOfFuel => None
  end.

Definition M (conn : Type) (A : Type) : Type := World conn → outcome (World conn) A.

Global Instance M_ret {conn} : MRet (M conn) := λ A a w, Returns a w.
Global Instance M_bind {conn} : MBind (M conn) := λ A B f m w,
  match m w with
  | Returns a w' => f a w'
  | Panics msg w' => Panics msg w'
  | OutOfFuel => OutOfFuel
  end.

Definition panic {conn A} (msg : string) : M conn A := λ w, Panics msg w.
Definition out_of_fuel {conn A} : M conn A := λ _, OutOfFuel.

Section transport.
Context {conn : Type} `{!httpAdapter conn}.

Definition http_Get (path : string) : M conn (Response + error) := λ w,
  let '(r, n) := Get path (net w) in
  Returns r (mkWorld n (sent w ++ [GET path])).

Definition http_Post (path : string) (body : Payload) : M conn (Response + error) := λ w,
  let '(r, n) := Post path body (net w) in
  Returns r (mkWorld n (sent w ++ [POST path body])).

Definition http_Put (path : string) (body : Payload) : M conn (Response + error) := λ w,
  let '(r, n) := Put path body (net w) in
  Returns r (mkWorld n (sent w ++ [PUT path body])).

Definition http_Delete (path : string) : M conn (Response + error) := λ w,
  let '(r, n) := Delete path (net w) in
  Returns r (mkWorld n (sent w ++ [DELETE path])).
End transport.

(** ** The client operations *)

Section client.
Context {conn : Type} `{!httpAdapter conn}.

Definition assetPath (c : Client) (query : gmap string string) : string :=
  let formatted := "/admin/assets.json" in
  let formatted :=
    if negb (String.eqb (themeID c) "")
    then "/admin/themes/" +:+ themeID c +:+ "/assets.json"
    else formatted in
  if 0 <? size query
  then formatted +:+ "?" +:+ url_Values_Encode query
  else formatted.

(** GetShop will return information for the shop you are working on. *)
Definition GetShop (c : Client) : M conn (Shop * option error) :=
  r ← http_Get "/meta.json";
  match r with
  | inr err => mret (zero, Some err)
  | inl resp =>
      if (StatusCode resp =? 404)%Z then mret (zero, Some ErrShopDomainNotFound)
      else
        let '(shop, err) := unmarshalResponse (Body resp) (zero : Shop) in
        match err with
        | Some err => mret (zero, Some err)
        | None => mret (shop, None)
        end
  end.

(** Themes will return all the available themes on a domain. *)
Definition Themes (c : Client) : M conn (list Theme * option error) :=
  r ← http_Get "/admin/themes.json";
  match r with
  | inr err => mret ([], Some err)
  | inl resp =>
      let '(r, err) := unmarshalResponse (Body resp) (zero : themesResponse) in
      match err with
      | Some err => mret ([], Some err)
      | None => mret (Themes_ r, None)
      end
  end.

(** CreateNewTheme will create a unpublished new theme and then set the
    theme id on this client to the one recently created.  The receiver is a
    pointer, so the client as the call leaves it is part of the result. *)
Definition CreateNewTheme (c : Client) (name : string)
    : M conn (Client * (Theme * option error)) :=
  if String.eqb name "" then mret (c, (zero, Some ErrThemeNameRequired))
  else
    r ← http_Post "/admin/themes.json"
          (ThemePayload (mkTheme 0 name "" false false));
    match r with
    | inr err => mret (c, (zero, Some err))
    | inl resp =>
        let '(r, err) := unmarshalResponse (Body resp) (zero : themeResponse) in
        match err with
        | Some err => mret (c, (zero, Some err))
        | None =>
            if 0 <? size (tr_Errors r)
            then mret (c, (zero, Some (errors_New (toSentence (toMessages (tr_Errors r))))))
            else
              let c := mkClient (fmt_Sprintf_d (Theme_ID (tr_Theme r))) (filter c) in
              mret (c, (tr_Theme r, err))
        end
    end.

(** GetInfo will return the theme data for the clients theme. *)
Definition GetInfo (c : Client) : M conn (Theme * option error) :=
  if String.eqb (themeID c) "" then mret (zero, Some ErrInfoWithoutThemeID)
  else
    r ← http_Get ("/admin/themes/" +:+ themeID c +:+ ".json");
    match r with
    | inr err => mret (zero, Some err)
    | inl resp =>
        if (StatusCode resp =? 404)%Z then mret (zero, Some ErrThemeNotFound)
        else
          let '(r, err) := unmarshalResponse (Body resp) (zero : themeResponse) in
          match err with
          | Some err => mret (zero, Some err)
          | None => mret (tr_Theme r, None)
          end
    end.

(** PublishTheme will update the theme to be role main. *)
Definition PublishTheme (c : Client) : M conn (option error) :=
  if String.eqb (themeID c) "" then mret (Some ErrPublishWithoutThemeID)
  else
    r ← http_Put ("/admin/themes/" +:+ themeID c +:+ ".json")
          (ThemePayload (mkTheme 0 "" "main" false false));
    match r with
    | inr err => mret (Some err)
    | inl resp =>
        if (StatusCode resp =? 404)%Z then mret (Some ErrThemeNotFound)
        else
          let '(r, err) := unmarshalResponse (Body resp) (zero : themeResponse) in
          match err with
          | Some err => mret (Some err)
          | None =>
              if 0 <? size (tr_Errors r)
              then mret (Some (errors_New (toSentence (toMessages (tr_Errors r)))))
              else mret None
          end
    end.

(** [sort.Slice(r.Assets, func(i, j) { Key[i] < Key[j] })].  The library
    sort is not stable, which only shows between assets of equal key; the
    sequence of keys it leaves is the one of any sort by key. *)
Definition Key_le (a b : Asset) : Prop := String.le (Key a) (Key b).

Global Instance Key_le_dec : RelDecision Key_le.
Proof. intros a b. unfold Key_le. apply _. Defined.

Definition sort_Slice_by_Key (assets : list Asset) : list Asset :=
  merge_sort Key_le assets.

(** The condition of the listing loop at [index].  The successor is read
    only when [index] is not the last one, so the read is in range. *)
Definition retained (f : Filter) (assets : list Asset) (index : nat) (asset : Asset)
    : bool :=
  negb (Match f (Key asset))
  && ((index =? length assets - 1)
      || negb (String.eqb (Key (default zero (assets !! (index + 1))))
                          (Key asset +:+ ".liquid"))).

(** [for index, asset := range r.Assets { if ... { append } }]. *)
Fixpoint range_Assets (f : Filter) (assets : list Asset) (index : nat)
    (rest : list Asset) (filteredAssets : list string) : list string :=
  match rest with
  | [] => filteredAssets
  | asset :: rest =>
      range_Assets f assets (S index) rest
        (if retained f assets index asset
         then filteredAssets ++ [Key asset]
         else filteredAssets)
  end.

Definition filterAssets (f : Filter) (assets : list Asset) : list string :=
  range_Assets f assets 0 assets [].

(** GetAllAssets will return a slice of remote asset keys; the assets are
    sorted and any ignored files are filtered out. *)
Definition GetAllAssets (c : Client) : M conn (list string * option error) :=
  r ← http_Get (assetPath c {[ "fields" := "key" ]});
  match r with
  | inr err => mret ([], Some err)
  | inl resp =>
      if (StatusCode resp =? 404)%Z then mret ([], Some ErrThemeNotFound)
      else
        let '(r, err) := unmarshalResponse (Body resp) (zero : assetsResponse) in
        match err with
        | Some err => mret ([], Some err)
        | None => mret (filterAssets (filter c) (sort_Slice_by_Key (Assets r)), None)
        end
  end.

(** GetAsset will fetch a single remote asset. *)
Definition GetAsset (c : Client) (filename : string) : M conn (Asset * option error) :=
  r ← http_Get (assetPath c {[ "asset[key]" := filename ]});
  match r with
  | inr err => mret (zero, Some err)
  | inl resp =>
      if (StatusCode resp =? 404)%Z then mret (zero, Some ErrNotPartOfTheme)
      else
        let '(r, err) := unmarshalResponse (Body resp) (zero : assetResponse) in
        match err with
        | Some err => mret (zero, Some err)
        | None => mret (ar_Asset r, None)
        end
  end.

(** DeleteAsset will take an asset and return when it has been deleted. *)
Definition DeleteAsset (c : Client) (asset : Asset) : M conn (option error) :=
  r ← http_Delete (assetPath c {[ "asset[key]" := Key asset ]});
  match r with
  | inr err => mret (Some err)
  | inl resp =>
      if (StatusCode resp =? 403)%Z then mret (Some ErrCriticalFile)
      else if (StatusCode resp =? 404)%Z then mret (Some ErrNotPartOfTheme)
      else if (StatusCode resp =? 406)%Z then mret (Some ErrMissingAssetName)
      else
        let '(r, err) := unmarshalResponse (Body resp) (zero : assetResponse) in
        match err with
        | Some err => mret (Some err)
        | None =>
            if 0 <? size (ar_Errors r)
            then mret (Some (errors_New (toSentence (toMessages (ar_Errors r)))))
            else mret None
        end
  end.

(** The test of the conflict branch,
    [resp.StatusCode == 422 && strings.Contains(r.Errors["asset"][0], ...)]:
    the first message is read only when the status is 422, and reading it
    from an empty list is a run-time error. *)
Definition overwrite_conflict (resp : Response) (msgs : list string) : M conn bool :=
  if (StatusCode resp =? 422)%Z then
    match msgs !! 0 with
    | Some msg => mret (strings_Contains msg "Cannot overwrite generated asset")
    | None => panic "index out of range [0] with length 0"
    end
  else mret false.

(** UpdateAsset will take an asset and return when it has been updated.
    The function calls itself; [fuel] bounds the depth of that recursion. *)
Fixpoint UpdateAsset (fuel : nat) (c : Client) (asset : Asset) : M conn (option error) :=
  match fuel with
  | 0 => out_of_fuel
  | S fuel =>
      r ← http_Put (assetPath c ∅) (AssetPayload asset);
      match r with
      | inr err => mret (Some err)
      | inl resp =>
          if (StatusCode resp =? 404)%Z then mret (Some ErrNotPartOfTheme)
          else
            let '(r, err) := unmarshalResponse (Body resp) (zero : assetResponse) in
            match err with
            | Some err => mret (Some err)
            | None =>
                if 0 <? size (ar_Errors r) then
                  match ar_Errors r !! "asset" with
                  | Some msgs =>
                      conflict ← overwrite_conflict resp msgs;
                      if conflict : bool then
                        _ ← DeleteAsset c (mkAsset (Key asset +:+ ".liquid") "" "" "");
                        UpdateAsset fuel c asset
                      else mret (Some (errors_New (toSentence msgs)))
                  | None =>
                      mret (Some (errors_New (toSentence (toMessages (ar_Errors r)))))
                  end
                else mret None
            end
      end
  end.

(** CreateAsset delegates to UpdateAsset. *)
Definition CreateAsset (fuel : nat) (c : Client) (asset : Asset) : M conn (option error) :=
  UpdateAsset fuel c asset.
End client.

(** ** Sequences of operations on one client *)

(** The public operations. *)
Inductive Operation : Type :=
  | OpGetShop
  | OpThemes
  | OpCreateNewTheme (name : string)
  | OpGetInfo
  | OpPublishTheme
  | OpGetAllAssets
  | OpGetAsset (filename : string)
  | OpCreateAsset (asset : Asset)
  | OpUpdateAsset (asset : Asset)
  | OpDeleteAsset (asset : Asset).

Section session.
Context {conn : Type} `{!httpAdapter conn}.

(** One call on the client [c], giving the client as the caller holds it
    afterwards.  Every method but [CreateNewTheme] has a value receiver: it
    works on a copy, and the caller's client is the one it had. *)
Definition call (fuel : nat) (op : Operation) (c : Client) : M conn Client :=
  match op with
  | OpGetShop => _ ← GetShop c; mret c
  | OpThemes => _ ← Themes c; mret c
  | OpCreateNewTheme name => r ← CreateNewTheme c name; mret (fst r)
  | OpGetInfo => _ ← GetInfo c; mret c
  | OpPublishTheme => _ ← PublishTheme c; mret c
  | OpGetAllAssets => _ ← GetAllAssets c; mret c
  | OpGetAsset filename => _ ← GetAsset c filename; mret c
  | OpCreateAsset asset => _ ← CreateAsset fuel c asset; mret c
  | OpUpdateAsset asset => _ ← UpdateAsset fuel c asset; mret c
  | OpDeleteAsset asset => _ ← DeleteAsset c asset; mret c
  end.

Fixpoint calls (fuel : nat) (ops : list Operation) (c : Client) : M conn Client :=
  match ops with
  | [] => mret c
  | op :: ops => c' ← call fuel op c; calls fuel ops c'
  end.
(** One call on the client [c], giving the error it returns. *)
Definition report (fuel : nat) (op : Operation) (c : Client) : M conn (option error) :=
match op with
| OpGetShop => r ← GetShop c; mret (snd r)
| OpThemes => r ← Themes c; mret (snd r)
| OpCreateNewTheme name => r ← CreateNewTheme c name; mret (snd (snd r))
| OpGetInfo => r ← GetInfo c; mret (snd r)
| OpPublishTheme => PublishTheme c
| OpGetAllAssets => r ← GetAllAssets c; mret (snd r)
| OpGetAsset filename => r ← GetAsset c filename; mret (snd r)
| OpCreateAsset asset => CreateAsset fuel c asset
| OpUpdateAsset asset => UpdateAsset fuel c asset
| OpDeleteAsset asset => DeleteAsset c asset
end.

(** The adapter method a logged call stands for. *)
Definition perform (call : Call) : conn → (Response + error) * conn :=
match call with
| GET path => Get path
| POST path body => Post path body
| PUT path body => Put path body
| DELETE path => Delete path
end.

End session.

(** The checks made before anything is sent: a name for a new theme, a theme
    id for the calls on one theme. *)
Definition ready (op : Operation) (c : Client) : bool :=
  match op with
  | OpCreateNewTheme name => negb (String.eqb name "")
  | OpGetInfo | OpPublishTheme => negb (String.eqb (themeID c) "")
  | _ => true
  end.

(** The request each operation starts with. *)
Definition first_call (op : Operation) (c : Client) : Call :=
  match op with
  | OpGetShop => GET "/meta.json"
  | OpThemes => GET "/admin/themes.json"
  | OpCreateNewTheme name =>
      POST "/admin/themes.json" (ThemePayload (mkTheme 0 name "" false false))
  | OpGetInfo => GET ("/admin/themes/" +:+ themeID c +:+ ".json")
  | OpPublishTheme =>
      PUT ("/admin/themes/" +:+ themeID c +:+ ".json")
        (ThemePayload (mkTheme 0 "" "main" false false))
  | OpGetAllAssets => GET (assetPath c {[ "fields" := "key" ]})
  | OpGetAsset filename => GET (assetPath c {[ "asset[key]" := filename ]})
  | OpCreateAsset asset | OpUpdateAsset asset =>
      PUT (assetPath c ∅) (AssetPayload asset)
  | OpDeleteAsset asset => DELETE (assetPath c {[ "asset[key]" := Key asset ]})
  end.

(** What a 404 answer to that request is reported as; [Themes] and
    [CreateNewTheme] do not look at the status. *)
Definition not_found (op : Operation) : option error :=
  match op with
  | OpGetShop => Some ErrShopDomainNotFound
  | OpGetInfo | OpPublishTheme | OpGetAllAssets => Some ErrThemeNotFound
  | OpGetAsset _ | OpCreateAsset _ | OpUpdateAsset _ | OpDeleteAsset _ =>
      Some ErrNotPartOfTheme
  | OpThemes | OpCreateNewTheme _ => None
  end.

(** No member of a JSON object answers to the name ["errors"], in any
    case. *)
Definition no_errors_member (members : list (string * json)) : bool :=
  forallb (λ m, negb (String.eqb (lower (fst m)) "errors")) members.

(** A response with the given status whose body is the JSON object of the
    given members. *)
Definition object_response (status : Z) (members : list (string * json)) : Response :=
  mkResponse status (mkBody (inl (Text (JObject members))) None).

Definition is_asset_write (op : Operation) : bool :=
  match op with
  | OpCreateAsset _ | OpUpdateAsset _ => true
  | _ => false
  end.

Definition is_CreateNewTheme (op : Operation) : bool :=
  match op with
  | OpCreateNewTheme _ => true
  | _ => false
  end.

(** ** A scripted transport

    A transport that answers the calls made on it, whatever they are, with
    the replies of a script, in order. *)
Definition script : Type := list (Response + error).

Definition next_reply (s : script) : (Response + error) * script :=
  match s with
  | r :: s' => (r, s')
  | [] => (inr (TransportError "connection closed"), [])
  end.

Global Instance scripted : httpAdapter script := {|
  Get _ := next_reply;
  Post _ _ := next_reply;
  Put _ _ := next_reply;
  Delete _ := next_reply;
|}.

(** A response with the given status whose body is the JSON text [j]. *)
Definition reply (status : Z) (j : json) : Response + error :=
  inl (mkResponse status (mkBody (inl (Text j)) None)).

Definition start (s : script) : World script := mkWorld s [].

(** The body [{"errors": {"asset": [msg, ...]}}]. *)
Definition asset_errors (msgs : list string) : json :=
  JObject [("errors", JObject [("asset", JArray (JString <$> msgs))])].

(** The body [{"assets": [{"key": k}, ...]}]. *)
Definition assets_json (keys : list string) : json :=
  JObject [("assets", JArray ((λ k, JObject [("key", JString k)]) <$> keys))].

(** ** The listing and the sentence, as the specification words them *)

Definition shadowed_by_next (k : string) (rest : list string) : bool :=
  match rest with
  | next :: _ => String.eqb next (k +:+ ".liquid")
  | [] => false
  end.

(** Filter (b) on its own: drop a key immediately followed by its [.liquid]
    variant. *)
Fixpoint drop_shadowed (keys : list string) : list string :=
  match keys with
  | [] => []
  | k :: rest =>
      if shadowed_by_next k rest then drop_shadowed rest
      else k :: drop_shadowed rest
  end.

(** The two filters in sequence: (a) drop the ignored keys, then (b) drop the
    shadowed keys of what remains. *)
Definition two_filters_in_sequence (f : Filter) (sorted : list string) : list string :=
  drop_shadowed (List.filter (λ k, negb (Match f k)) sorted).

(** One pass over the sorted keys: a key is kept when it is not ignored and
    its successor in the sorted list, ignored or not, is not its [.liquid]
    variant. *)
Fixpoint single_pass (f : Filter) (sorted : list string) : list string :=
  match sorted with
  | [] => []
  | k :: rest =>
      if negb (Match f k) && negb (shadowed_by_next k rest)
      then k :: single_pass f rest
      else single_pass f rest
  end.

(** The keys in ascending order. *)
Definition sorted_keys (assets : list Asset) : list string :=
  merge_sort String.le (Key <$> assets).

(** ["A, B, ..., and Z"], for two items or more. *)
Fixpoint oxford (items : list string) : string :=
  match items with
  | [] => ""
  | [z] => "and " +:+ z
  | x :: rest => x +:+ ", " +:+ oxford rest
  end.

Definition sentence (items : list string) : string :=
  match items with
  | [] => ""
  | [a] => a
  | [a; b] => a +:+ " and " +:+ b
  | _ => oxford items
  end.

(** * Properties *)

(** ** Strings and numbers *)

Lemma eqb_empty_true (s : string) : s = "" → String.eqb s "" = true.
Proof. intros ->. reflexivity. Qed.

Lemma eqb_empty_false (s : string) : s ≠ "" → String.eqb s "" = false.
Proof. intros Hs. apply String.eqb_neq. exact Hs. Qed.

Lemma pretty_N_go_nonempty (x : N) (s : string) : s ≠ "" → pretty_N_go x s ≠ "".
Proof.
  revert s. induction (N.lt_wf_0 x) as [x _ IH]. intros s Hs.
  destruct (decide (0 < x)%N) as [Hx|Hx].
  - rewrite pretty_N_go_step by exact Hx.
    apply IH; [|discriminate].
    apply N.div_lt; lia.
  - assert (x = 0%N) as -> by lia. rewrite pretty_N_go_0. exact Hs.
Qed.

Lemma pretty_positive_nonempty (p : positive) : pretty (N.pos p) ≠ "".
Proof.
  unfold pretty, pretty_N. rewrite decide_False by discriminate.
  rewrite pretty_N_go_step by lia.
  apply pretty_N_go_nonempty. discriminate.
Qed.

(** A formatted integer has at least one character. *)
Lemma fmt_Sprintf_d_nonempty (n : Z) : fmt_Sprintf_d n ≠ "".
Proof.
  unfold fmt_Sprintf_d. destruct n as [|p|p]; unfold pretty, pretty_Z.
  - discriminate.
  - apply pretty_positive_nonempty.
  - discriminate.
Qed.

(** ** The precondition checks *)

Section preconditions.
Context {conn : Type} `{!httpAdapter conn}.

(** C7.  On a client whose [themeID] is empty, [GetInfo] returns the zero
    theme with "cannot get info without a theme id" and [PublishTheme]
    returns "cannot publish a theme without a theme id set"; both leave the
    transport and the log of calls as they were, so no request is made. *)
Theorem unbound_GetInfo_PublishTheme_fail_fast (c : Client) (w : World conn) :
  themeID c = "" →
  GetInfo c w = Returns (zero, Some ErrInfoWithoutThemeID) w
  ∧ PublishTheme c w = Returns (Some ErrPublishWithoutThemeID) w
  ∧ Error ErrInfoWithoutThemeID = "cannot get info without a theme id"
  ∧ Error ErrPublishWithoutThemeID = "cannot publish a theme without a theme id set".
Proof.
  intros Hid. unfold GetInfo, PublishTheme.
  rewrite (eqb_empty_true _ Hid). repeat split.
Qed.

(** [DeleteAsset] always returns, having made one [Delete] call. *)
Lemma DeleteAsset_returns (c : Client) (asset : Asset) (w : World conn) :
  let path := assetPath c {[ "asset[key]" := Key asset ]} in
  ∃ e, DeleteAsset c asset w
       = Returns e (mkWorld (Delete path (net w)).2 (sent w ++ [DELETE path])).
Proof.
  intros path. unfold DeleteAsset, mbind, M_bind, http_Delete. fold path.
  destruct (Delete path (net w)) as [[resp|err] n]; simpl; [|by eexists].
  destruct (StatusCode resp =? 403)%Z; [by eexists|].
  destruct (StatusCode resp =? 404)%Z; [by eexists|].
  destruct (StatusCode resp =? 406)%Z; [by eexists|].
  destruct (unmarshalResponse (Body resp) zero) as [r [err|]]; [by eexists|].
  destruct (0 <? size (ar_Errors r)); by eexists.
Qed.

(** C2, as the code has it.  [DeleteAsset] makes no check of the key: for
    every asset, one with an empty key included, it makes exactly one
    [Delete] call, for the asset path with [asset[key]] set to the key, and
    returns; the "missing asset name" error is what it returns when the
    server answers 406. *)
Theorem DeleteAsset_asks_the_server (c : Client) (asset : Asset) (w : World conn) :
  let path := assetPath c {[ "asset[key]" := Key asset ]} in
  ∃ e,
    DeleteAsset c asset w
    = Returns e (mkWorld (Delete path (net w)).2 (sent w ++ [DELETE path]))
    ∧ (∀ resp, (Delete path (net w)).1 = inl resp →
               StatusCode resp = 406%Z → e = Some ErrMissingAssetName).
Proof.
  intros path. unfold DeleteAsset, mbind, M_bind, http_Delete. fold path.
  destruct (Delete path (net w)) as [[resp|err] n]; simpl.
  2: { eexists. split; [reflexivity|]. intros ? [=]. }
  destruct (StatusCode resp =? 403)%Z eqn:H403.
  { eexists. split; [reflexivity|]. intros ? [= <-] H. rewrite H in H403. done. }
  destruct (StatusCode resp =? 404)%Z eqn:H404.
  { eexists. split; [reflexivity|]. intros ? [= <-] H. rewrite H in H404. done. }
  destruct (StatusCode resp =? 406)%Z eqn:H406.
  { eexists. split; [reflexivity|]. done. }
  assert (∀ resp', inl resp = inl (B := error) resp' →
                   StatusCode resp' = 406%Z → False) as Hno.
  { intros ? [= <-] H. rewrite H in H406. done. }
  destruct (unmarshalResponse (Body resp) zero) as [r [err|]].
  { eexists. split; [reflexivity|]. intros. exfalso. eauto. }
  destruct (0 <? size (ar_Errors r));
    (eexists; split; [reflexivity|]; intros; exfalso; eauto).
Qed.
End preconditions.

(** C7 at a concrete client: unbound, with a transport ready to answer. *)
Lemma unbound_GetInfo_PublishTheme_fail_fast_witness :
  let c := mkClient "" (mkFilter (λ _, false)) in
  let w := start [reply 200 (JObject [("theme", JObject [("id", JInt 5)])])] in
  GetInfo c w = Returns (zero, Some ErrInfoWithoutThemeID) w
  ∧ PublishTheme c w = Returns (Some ErrPublishWithoutThemeID) w.
Proof.
  intros c w.
  destruct (unbound_GetInfo_PublishTheme_fail_fast c w eq_refl) as (HInfo & HPublish & _).
  by split.
Defined.

(** C2 at a concrete input: an empty key, and a server that answers 406. *)
Lemma DeleteAsset_asks_the_server_witness :
  let c := mkClient "" (mkFilter (λ _, false)) in
  let asset := mkAsset "" "" "" "" in
  let w := start [reply 406 JNull] in
  DeleteAsset c asset w
  = Returns (Some ErrMissingAssetName)
      (mkWorld [] [DELETE "/admin/assets.json?asset%5Bkey%5D="]).
Proof.
  intros c asset w.
  destruct (DeleteAsset_asks_the_server c asset w) as (e & Hcall & H406).
  rewrite Hcall.
  rewrite (H406 (mkResponse 406 (mkBody (inl (Text JNull)) None)) eq_refl eq_refl).
  reflexivity.
Defined.

(** C2, on the code.  With an empty key, [DeleteAsset] does make the [Delete]
    call, and when the server answers 200 it returns no error. *)
Lemma DeleteAsset_empty_key_reaches_the_server :
  let c := mkClient "" (mkFilter (λ _, false)) in
  let asset := mkAsset "" "" "" "" in
  let w := start [reply 200 (JObject [])] in
  Key asset = ""
  ∧ DeleteAsset c asset w
    = Returns None (mkWorld [] [DELETE "/admin/assets.json?asset%5Bkey%5D="])
  ∧ DeleteAsset c asset w ≠ Returns (Some ErrMissingAssetName) w.
Proof. by vm_compute. Qed.

(** ** Theme creation *)

Section creation.
Context {conn : Type} `{!httpAdapter conn}.

(** What a call of [CreateNewTheme] that reports no error went through. *)
Lemma CreateNewTheme_success (c : Client) (name : string) (w : World conn)
    (c' : Client) (t : Theme) (w' : World conn) :
  CreateNewTheme c name w = Returns (c', (t, None)) w' →
  let body := ThemePayload (mkTheme 0 name "" false false) in
  ∃ resp r,
    name ≠ ""
    ∧ Post "/admin/themes.json" body (net w) = (inl resp, net w')
    ∧ sent w' = sent w ++ [POST "/admin/themes.json" body]
    ∧ unmarshalResponse (Body resp) zero = (r, None)
    ∧ t = tr_Theme r
    ∧ c' = mkClient (fmt_Sprintf_d (Theme_ID (tr_Theme r))) (filter c).
Proof.
  unfold CreateNewTheme. destruct (String.eqb name "") eqn:Hname.
  { intros [=]. }
  apply String.eqb_neq in Hname.
  unfold mbind, M_bind, http_Post.
  destruct (Post _ _ (net w)) as [[resp|err] n] eqn:HPost; simpl; [|intros [=]].
  destruct (unmarshalResponse (Body resp) zero) as [r [err|]] eqn:Hr; [intros [=]|].
  destruct (0 <? size (tr_Errors r)); [intros [=]|].
  intros [= <- <- <-]. exists resp, r. simpl. done.
Qed.

(** C6.  [CreateNewTheme] with the empty name returns the name-required
    error and leaves the transport and the log of calls untouched.  When a
    call reports no error, the client's [themeID] is the decimal rendering
    of the ID of the theme decoded from the response, which is the theme
    returned; it is not empty, so the asset path and the next [GetInfo] of
    this client address that theme. *)
Theorem CreateNewTheme_requires_name_and_binds (c : Client) (w : World conn) :
  CreateNewTheme c "" w = Returns (c, (zero, Some ErrThemeNameRequired)) w
  ∧ ∀ name c' t w',
      CreateNewTheme c name w = Returns (c', (t, None)) w' →
      let id := fmt_Sprintf_d (Theme_ID t) in
      themeID c' = id
      ∧ filter c' = filter c
      ∧ (∃ resp r,
           Post "/admin/themes.json" (ThemePayload (mkTheme 0 name "" false false))
             (net w) = (inl resp, net w')
           ∧ unmarshalResponse (Body resp) zero = (r, None)
           ∧ t = tr_Theme r)
      ∧ assetPath c' ∅ = "/admin/themes/" +:+ id +:+ "/assets.json"
      ∧ ∃ res n,
          GetInfo c' w'
          = Returns res
              (mkWorld n (sent w' ++ [GET ("/admin/themes/" +:+ id +:+ ".json")])).
Proof.
  split; [reflexivity|].
  intros name c' t w' Hcall.
  destruct (CreateNewTheme_success _ _ _ _ _ _ Hcall)
    as (resp & r & Hname & HPost & Hsent & Hr & -> & ->).
  simpl. repeat split.
  - by exists resp, r.
  - unfold assetPath. simpl.
    by rewrite (eqb_empty_false _ (fmt_Sprintf_d_nonempty _)).
  - unfold GetInfo. simpl.
    rewrite (eqb_empty_false _ (fmt_Sprintf_d_nonempty _)).
    unfold mbind, M_bind, http_Get.
    destruct (Get _ (net w')) as [[resp'|err] n]; simpl; [|by eexists _, _].
    destruct (StatusCode resp' =? 404)%Z; [by eexists _, _|].
    destruct (unmarshalResponse (Body resp') zero) as [r' [err|]];
      by eexists _, _.
Qed.
End creation.

(** C6 at a concrete input: creating "Foo" when the server answers with
    theme 5 binds the client to "5". *)
Lemma CreateNewTheme_requires_name_and_binds_witness :
  let c := mkClient "" (mkFilter (λ _, false)) in
  let w := start [reply 201 (JObject [("theme",
                    JObject [("id", JInt 5); ("name", JString "Foo")])])] in
  let t := mkTheme 5 "Foo" "" false false in
  let c' := mkClient "5" (mkFilter (λ _, false)) in
  let w' := mkWorld (conn := script) []
              [POST "/admin/themes.json" (ThemePayload (mkTheme 0 "Foo" "" false false))] in
  CreateNewTheme c "Foo" w = Returns (c', (t, None)) w'
  ∧ themeID c' = fmt_Sprintf_d 5.
Proof.
  intros c w t c' w'.
  assert (CreateNewTheme c "Foo" w = Returns (c', (t, None)) w') as Hcall
    by reflexivity.
  split; [exact Hcall|].
  exact (proj1 (proj2 (CreateNewTheme_requires_name_and_binds c w) "Foo" c' t w' Hcall)).
Defined.

(** ** The sentence renderer *)

Lemma string_app_assoc (s1 s2 s3 : string) : (s1 +:+ s2) +:+ s3 = s1 +:+ (s2 +:+ s3).
Proof.
  induction s1 as [|a s1 IH]; [done|].
  change (String a ((s1 +:+ s2) +:+ s3) = String a (s1 +:+ (s2 +:+ s3))).
  by rewrite IH.
Qed.

Lemma strings_Join_cons (e : string) (rest : list string) (sep : string) :
  rest ≠ [] → strings_Join (e :: rest) sep = e +:+ sep +:+ strings_Join rest sep.
Proof. destruct rest; done. Qed.

(** The general case of [toSentence] is the comma-joined sentence. *)
Lemma Join_and_last_oxford (init : list string) (z : string) :
  init ≠ [] →
  strings_Join init ", " +:+ ", and " +:+ z = oxford (init ++ [z]).
Proof.
  induction init as [|x init IH]; [done|]. intros _.
  destruct init as [|y init].
  - simpl. reflexivity.
  - rewrite strings_Join_cons by done.
    change (oxford ((x :: y :: init) ++ [z]))
      with (x +:+ ", " +:+ oxford ((y :: init) ++ [z])).
    rewrite <- IH by done. by rewrite !string_app_assoc.
Qed.

Lemma toSentence_snoc (init : list string) (z : string) :
  2 ≤ length init →
  toSentence (init ++ [z]) = strings_Join init ", " +:+ ", and " +:+ z.
Proof.
  intros Hlen. unfold toSentence, slice_to, at_index.
  rewrite length_app. simpl.
  replace (length init + 1) with (S (S (S (length init - 2)))) by lia.
  cbv beta iota.
  replace (S (S (S (length init - 2))) - 1) with (length init) by lia.
  rewrite take_app_length.
  by rewrite list_lookup_middle.
Qed.

(** C8.  [toSentence] gives the empty string for no item, the item for one,
    ["A and B"] for two, and for three items or more all but the last joined
    with [", "], then [", and "], then the last; which is the Oxford-comma
    sentence for every list. *)
Theorem toSentence_renders :
  toSentence [] = ""
  ∧ (∀ a, toSentence [a] = a)
  ∧ (∀ a b, toSentence [a; b] = a +:+ " and " +:+ b)
  ∧ (∀ init z, 2 ≤ length init →
       toSentence (init ++ [z]) = strings_Join init ", " +:+ ", and " +:+ z)
  ∧ (∀ items, toSentence items = sentence items)
  ∧ toSentence ["A"; "B"; "C"] = "A, B, and C".
Proof.
  split; [done|]. split; [done|]. split; [done|].
  split; [apply toSentence_snoc|]. split; [|done].
  intros items.
  destruct items as [|a [|b [|c rest]]]; [done..|].
  destruct (exists_last (l := a :: b :: c :: rest)) as (init & z & Heq); [done|].
  assert (2 ≤ length init) as Hlen.
  { apply (f_equal length) in Heq. rewrite length_app in Heq. simpl in Heq. lia. }
  rewrite Heq at 1. rewrite toSentence_snoc by done.
  rewrite Join_and_last_oxford by (by intros ->).
  by rewrite <- Heq.
Qed.

(** C8 at a concrete list of four. *)
Lemma toSentence_renders_witness :
  toSentence (["w"; "x"; "y"] ++ ["z"]) = "w, x, y, and z".
Proof.
  rewrite (proj1 (proj2 (proj2 (proj2 toSentence_renders))) ["w"; "x"; "y"] "z");
    [reflexivity | simpl; lia].
Defined.

(** ** The response decoder *)

Section decoder.
Context {A : Type} {UA : Unmarshaler A} {UR : Unmarshaler reqErr}.

(** C5, as the code has it.  When reading the body fails the decoder
    returns "malformed response".  When the read succeeds and closing the
    body fails, it returns the close error, whatever the bytes are.  When
    both succeed: it returns "malformed response" exactly when both the
    target-shape decode and the flat-error decode fail; when the flat-error
    decode succeeds with a non-empty string, an error made of that string,
    whether or not the target-shape decode succeeded; and when at least one
    decode succeeds and the flat-error record holds the empty string, no
    error.  In each of these the value is the one the target-shape decode
    left. *)
Theorem unmarshalResponse_outcomes (body : ReadCloser) (data : A) :
  (∀ e, ReadAll body = inr e →
        unmarshalResponse body data = (data, Some ErrMalformedResponse))
  ∧ (∀ reqBody err, ReadAll body = inl reqBody → Close body = Some err →
        unmarshalResponse body data = (data, Some err))
  ∧ (∀ reqBody, ReadAll body = inl reqBody → Close body = None →
       let main := json_Unmarshal reqBody data in
       let flat := json_Unmarshal reqBody (zero : reqErr) in
       (unmarshalResponse body data).1 = main.1
       ∧ ((unmarshalResponse body data).2 = Some ErrMalformedResponse
          ↔ main.2 ≠ None ∧ flat.2 ≠ None)
       ∧ (flat.2 = None → re_Errors flat.1 ≠ "" →
          (unmarshalResponse body data).2 = Some (errors_New (re_Errors flat.1)))
       ∧ ((main.2 = None ∨ flat.2 = None) → re_Errors flat.1 = "" →
          (unmarshalResponse body data).2 = None)).
Proof.
  unfold unmarshalResponse. split; [|split].
  - intros e ->. reflexivity.
  - intros reqBody err -> ->. reflexivity.
  - intros reqBody -> ->. simpl.
    destruct (json_Unmarshal reqBody data) as [d mainErr].
    destruct (json_Unmarshal reqBody zero) as [re basicErr]. simpl.
    assert (re_Errors re = "" ∨ ∃ a s, re_Errors re = String a s) as [Hre|(a & s & Hre)].
    { destruct (re_Errors re); eauto. }
    + rewrite Hre.
      destruct mainErr, basicErr; simpl; (split; [done|]);
        (split; [split; [try done; intros [? ?]; done|by intros [? ?]]|]);
        (split; [done|]); try done.
      intros [?|?]; done.
    + rewrite Hre.
      destruct mainErr, basicErr; simpl; (split; [done|]);
        (split; [split; [try done; intros [? ?]; done|by intros [? ?]]|]);
        (split; [done|]); try done.
Qed.
End decoder.

(** C5, on the code.  A body whose bytes decode as neither shape and whose
    close fails: the decoder returns the close error, not "malformed
    response". *)
Lemma unmarshalResponse_close_error_wins :
  let body := mkBody (inl (Garbage "<html>")) (Some (TransportError "close failed")) in
  (json_Unmarshal (Garbage "<html>") (zero : Shop)).2 ≠ None
  ∧ (json_Unmarshal (Garbage "<html>") (zero : reqErr)).2 ≠ None
  ∧ unmarshalResponse body (zero : Shop) = (zero, Some (TransportError "close failed"))
  ∧ (unmarshalResponse body (zero : Shop)).2 ≠ Some ErrMalformedResponse.
Proof. by vm_compute. Qed.

(** C5 at a concrete body: the flat error shape alone. *)
Lemma unmarshalResponse_outcomes_witness :
  let body := mkBody (inl (Text (JObject [("errors", JString "Not Found")]))) None in
  (unmarshalResponse body (zero : themeResponse)).2 = Some (errors_New "Not Found").
Proof.
  intros body.
  exact (proj1 (proj2 (proj2 (proj2 (proj2 (unmarshalResponse_outcomes body
           (zero : themeResponse))) _ eq_refl eq_refl)))
           eq_refl ltac:(discriminate)).
Defined.

(** A flat-error decode that fails part of the way (a second [errors] member
    of the wrong type) has stored the first string, and the decoder returns
    it as the error when the target-shape decode succeeds. *)
Example unmarshalResponse_partial_flat_error :
  let body := mkBody (inl (Text (JObject [("errors", JString "x"); ("errors", JInt 5)]))) None in
  (json_Unmarshal (Text (JObject [("errors", JString "x"); ("errors", JInt 5)]))
     (zero : reqErr)).2 ≠ None
  ∧ unmarshalResponse body (zero : Shop) = (zero, Some (errors_New "x")).
Proof. by vm_compute. Qed.

(** ** Asset update and the conflict retry *)

Section update.
Context {conn : Type} `{!httpAdapter conn}.

Lemma lookup_Some_size_pos {V} (m : gmap string V) (k : string) (v : V) :
  m !! k = Some v → (0 <? size m) = true.
Proof.
  intros Hk. apply Nat.ltb_lt.
  destruct (decide (size m = 0)) as [Hz|]; [|lia].
  apply map_size_empty_iff in Hz. subst m. by rewrite lookup_empty in Hk.
Qed.

(** One unfolding of [UpdateAsset] on a response that takes the conflict
    branch: the rest of the call is the delete of the shadow, then the call
    of [UpdateAsset] again. *)
Lemma UpdateAsset_conflict_step (fuel : nat) (c : Client) (asset : Asset)
    (w : World conn) (resp : Response) (n : conn) (r : assetResponse)
    (msg : string) (msgs : list string) :
  Put (assetPath c ∅) (AssetPayload asset) (net w) = (inl resp, n) →
  StatusCode resp = 422%Z →
  unmarshalResponse (Body resp) zero = (r, None) →
  ar_Errors r !! "asset" = Some (msg :: msgs) →
  strings_Contains msg "Cannot overwrite generated asset" = true →
  UpdateAsset (S fuel) c asset w
  = (_ ← DeleteAsset c (mkAsset (Key asset +:+ ".liquid") "" "" "");
     UpdateAsset fuel c asset)
      (mkWorld n (sent w ++ [PUT (assetPath c ∅) (AssetPayload asset)])).
Proof.
  intros HPut Hstatus Hr Hasset Hmsg.
  change (UpdateAsset (S fuel) c asset w) with
    ((r ← http_Put (assetPath c ∅) (AssetPayload asset);
      match r with
      | inr err => mret (Some err)
      | inl resp =>
          if (StatusCode resp =? 404)%Z then mret (Some ErrNotPartOfTheme)
          else
            let '(r, err) := unmarshalResponse (Body resp) (zero : assetResponse) in
            match err with
            | Some err => mret (Some err)
            | None =>
                if 0 <? size (ar_Errors r) then
                  match ar_Errors r !! "asset" with
                  | Some msgs =>
                      conflict ← overwrite_conflict resp msgs;
                      if conflict : bool then
                        _ ← DeleteAsset c (mkAsset (Key asset +:+ ".liquid") "" "" "");
                        UpdateAsset fuel c asset
                      else mret (Some (errors_New (toSentence msgs)))
                  | None =>
                      mret (Some (errors_New (toSentence (toMessages (ar_Errors r)))))
                  end
                else mret None
            end
      end) w).
  unfold mbind at 1. unfold M_bind at 1. unfold http_Put. rewrite HPut.
  rewrite Hstatus. change (422 =? 404)%Z with false. cbv iota.
  rewrite Hr. rewrite (lookup_Some_size_pos _ _ _ Hasset). rewrite Hasset.
  unfold overwrite_conflict. rewrite Hstatus. change (422 =? 422)%Z with true.
  cbv iota. change ((msg :: msgs) !! 0) with (Some msg). cbv iota.
  rewrite Hmsg. reflexivity.
Qed.

(** A call that returns with some fuel returns the same with more. *)
Lemma UpdateAsset_fuel_mono (fuel : nat) (c : Client) (asset : Asset) :
  ∀ (w : World conn) e w',
    UpdateAsset fuel c asset w = Returns e w' →
    ∀ k, UpdateAsset (fuel + k) c asset w = Returns e w'.
Proof.
  induction fuel as [|fuel IH]; intros w e w' Hrun k; [done|].
  change (S fuel + k) with (S (fuel + k)).
  revert Hrun. simpl. unfold mbind, M_bind, http_Put.
  destruct (Put _ _ (net w)) as [[resp|err] n]; simpl; [|done].
  destruct (StatusCode resp =? 404)%Z; [done|].
  destruct (unmarshalResponse (Body resp) zero) as [r [err|]]; [done|].
  destruct (0 <? size (ar_Errors r)); [|done].
  destruct (ar_Errors r !! "asset") as [msgs|]; [|done].
  destruct (overwrite_conflict resp msgs _) as [[|] w1|?|]; [|done..].
  destruct (DeleteAsset c _ w1) as [e1 w2|?|]; [|done..].
  intros Hrun. by apply IH.
Qed.

(** A call that returns with one unit of fuel made a single [Put]. *)
Lemma UpdateAsset_1_sent (c : Client) (asset : Asset) (w : World conn) e w' :
  UpdateAsset 1 c asset w = Returns e w' →
  sent w' = sent w ++ [PUT (assetPath c ∅) (AssetPayload asset)].
Proof.
  simpl. unfold mbind, M_bind, http_Put.
  destruct (Put _ _ (net w)) as [[resp|err] n]; simpl; [|by intros [= <- <-]].
  destruct (StatusCode resp =? 404)%Z; [by intros [= <- <-]|].
  destruct (unmarshalResponse (Body resp) zero) as [r [err|]]; [by intros [= <- <-]|].
  destruct (0 <? size (ar_Errors r)); [|by intros [= <- <-]].
  destruct (ar_Errors r !! "asset") as [msgs|]; [|by intros [= <- <-]].
  unfold overwrite_conflict.
  destruct (StatusCode resp =? 422)%Z; [|by intros [= <- <-]].
  destruct (msgs !! 0) as [msg|]; [|done]. simpl.
  destruct (strings_Contains msg _); [|by intros [= <- <-]].
  destruct (DeleteAsset c _ _) as [e1 w2|?|]; done.
Qed.

(** C1, as the code has it.  On a 422 response whose decoded field errors
    have, under ["asset"], a first message containing the overwrite-conflict
    phrase, [UpdateAsset] makes one [Delete] call for the key with
    [".liquid"] appended, discards what that delete returns (an error
    included), and calls [UpdateAsset] again, returning what that call
    returns.  That call runs the same protocol, so nothing caps the number
    of retries; when it returns without meeting the conflict again, the
    whole call made exactly the update, the delete and one more update. *)
Theorem UpdateAsset_conflict_retries (c : Client) (asset : Asset)
    (w : World conn) (resp : Response) (n : conn) (r : assetResponse)
    (msg : string) (msgs : list string) :
  Put (assetPath c ∅) (AssetPayload asset) (net w) = (inl resp, n) →
  StatusCode resp = 422%Z →
  unmarshalResponse (Body resp) zero = (r, None) →
  ar_Errors r !! "asset" = Some (msg :: msgs) →
  strings_Contains msg "Cannot overwrite generated asset" = true →
  let update := PUT (assetPath c ∅) (AssetPayload asset) in
  let delete := DELETE (assetPath c {[ "asset[key]" := Key asset +:+ ".liquid" ]}) in
  ∃ del_err w2,
    DeleteAsset c (mkAsset (Key asset +:+ ".liquid") "" "" "")
      (mkWorld n (sent w ++ [update])) = Returns del_err w2
    ∧ sent w2 = sent w ++ [update; delete]
    ∧ (∀ fuel, UpdateAsset (S fuel) c asset w = UpdateAsset fuel c asset w2)
    ∧ (∀ e w3, UpdateAsset 1 c asset w2 = Returns e w3 →
         sent w3 = sent w ++ [update; delete; update]
         ∧ ∀ k, UpdateAsset (2 + k) c asset w = Returns e w3).
Proof.
  intros HPut Hstatus Hr Hasset Hmsg update delete.
  destruct (DeleteAsset_returns c (mkAsset (Key asset +:+ ".liquid") "" "" "")
              (mkWorld n (sent w ++ [update]))) as [del_err Hdel].
  simpl in Hdel. fold update delete in Hdel.
  match type of Hdel with _ = Returns _ ?w' => set (w2 := w') in * end.
  exists del_err, w2. split; [exact Hdel|].
  assert (sent w2 = sent w ++ [update; delete]) as Hsent.
  { unfold w2. simpl. by rewrite <- app_assoc. }
  split; [exact Hsent|].
  assert (∀ fuel, UpdateAsset (S fuel) c asset w = UpdateAsset fuel c asset w2) as Hstep.
  { intros fuel.
    rewrite (UpdateAsset_conflict_step fuel c asset w resp n r msg msgs) by done.
    fold update. unfold mbind at 1. unfold M_bind at 1. rewrite Hdel. reflexivity. }
  split; [exact Hstep|].
  intros e w3 Hretry. split.
  - rewrite (UpdateAsset_1_sent _ _ _ _ _ Hretry), Hsent.
    fold update. by rewrite <- app_assoc.
  - intros k. change (2 + k) with (S (1 + k)). rewrite Hstep.
    by apply UpdateAsset_fuel_mono.
Qed.
End update.

(** C1, on the code.  When the retried update meets the conflict again, the
    shadow is deleted again and the update retried again: two deletes and
    three updates. *)
Lemma UpdateAsset_retries_more_than_once :
  let c := mkClient "" (mkFilter (λ _, false)) in
  let asset := mkAsset "x.css" "body{}" "" "" in
  let conflict := reply 422 (asset_errors ["Cannot overwrite generated asset"]) in
  let ok := reply 200 (JObject []) in
  let update := PUT "/admin/assets.json" (AssetPayload asset) in
  let delete := DELETE "/admin/assets.json?asset%5Bkey%5D=x.css.liquid" in
  (∀ k, UpdateAsset (3 + k) c asset (start [conflict; ok; conflict; ok; ok])
        = Returns None (mkWorld [] [update; delete; update; delete; update]))
  ∧ [update; delete; update; delete; update] ≠ [update; delete; update].
Proof.
  split; [|done]. intros k.
  apply (UpdateAsset_fuel_mono 3). by vm_compute.
Qed.

(** C1 at a concrete input: the shadow delete is refused with 403 and the
    retried update goes through. *)
Lemma UpdateAsset_conflict_retries_witness :
  let c := mkClient "7" (mkFilter (λ _, false)) in
  let asset := mkAsset "x.css" "body{}" "" "" in
  let w := start [reply 422 (asset_errors ["Cannot overwrite generated asset x.css.liquid"]);
                  reply 403 JNull; reply 200 (JObject [])] in
  let update := PUT "/admin/themes/7/assets.json" (AssetPayload asset) in
  let delete := DELETE "/admin/themes/7/assets.json?asset%5Bkey%5D=x.css.liquid" in
  ∃ del_err w2,
    DeleteAsset c (mkAsset "x.css.liquid" "" "" "")
      (mkWorld [reply 403 JNull; reply 200 (JObject [])] [update]) = Returns del_err w2
    ∧ sent w2 = [update; delete]
    ∧ (∀ fuel, UpdateAsset (S fuel) c asset w = UpdateAsset fuel c asset w2)
    ∧ (∀ e w3, UpdateAsset 1 c asset w2 = Returns e w3 →
         sent w3 = [update; delete; update]
         ∧ ∀ k, UpdateAsset (2 + k) c asset w = Returns e w3).
Proof.
  intros c asset w update delete.
  eapply (UpdateAsset_conflict_retries c asset w).
  - vm_compute. reflexivity.
  - reflexivity.
  - vm_compute. reflexivity.
  - vm_compute. reflexivity.
  - vm_compute. reflexivity.
Defined.

(** C10, on the code.  A 422 response with body [{"errors": {"asset": []}}]:
    the map of field errors is not empty and has the key ["asset"], the
    status is 422, and the first message of the empty list is read.  The call
    ends in the run-time error, after the one [Put]. *)
Theorem UpdateAsset_empty_asset_errors_panics (fuel : nat) (c : Client) (asset : Asset) :
  UpdateAsset (S fuel) c asset (start [reply 422 (asset_errors [])])
  = Panics "index out of range [0] with length 0"
      (mkWorld [] [PUT (assetPath c ∅) (AssetPayload asset)]).
Proof. reflexivity. Qed.

(** ** The session state *)

Section session_state.
Context {conn : Type} `{!httpAdapter conn}.

(** [CreateNewTheme] leaves the client as it was or binds it to a
    formatted theme ID; the filter stays. *)
Lemma CreateNewTheme_client (c : Client) (name : string) (w : World conn) r w' :
  CreateNewTheme c name w = Returns r w' →
  r.1 = c ∨ ∃ id, r.1 = mkClient (fmt_Sprintf_d id) (filter c).
Proof.
  unfold CreateNewTheme. destruct (String.eqb name ""); [intros [= <- <-]; by left|].
  unfold mbind, M_bind, http_Post.
  destruct (Post _ _ (net w)) as [[resp|err] n]; simpl; [|intros [= <- <-]; by left].
  destruct (unmarshalResponse (Body resp) zero) as [r' [err|]];
    [intros [= <- <-]; by left|].
  destruct (0 <? size (tr_Errors r')); intros [= <- <-]; [by left|].
  right. by eexists.
Qed.

(** A method with a value receiver hands the caller's client back. *)
Lemma call_value_receiver (fuel : nat) (op : Operation) (c : Client)
    (w : World conn) c' w' :
  is_CreateNewTheme op = false →
  call fuel op c w = Returns c' w' → c' = c.
Proof.
  destruct op; simpl; try done; intros _; unfold mbind, M_bind;
    match goal with
    | |- match ?m with _ => _ end = _ → _ => destruct m; simpl; by intros [= <- <-]
    end.
Qed.

Lemma call_keeps_bound (fuel : nat) (op : Operation) (c : Client)
    (w : World conn) c' w' :
  call fuel op c w = Returns c' w' →
  filter c' = filter c ∧ (themeID c ≠ "" → themeID c' ≠ "").
Proof.
  destruct (is_CreateNewTheme op) eqn:Hop.
  - destruct op; try done. simpl. unfold mbind at 1. unfold M_bind at 1.
    destruct (CreateNewTheme c name w) as [r w1| |] eqn:Hcreate; [|done..].
    intros [= <- <-].
    destruct (CreateNewTheme_client _ _ _ _ _ Hcreate) as [->|[id ->]]; [done|].
    simpl. split; [done|]. intros _. apply fmt_Sprintf_d_nonempty.
  - intros Hcall. by rewrite (call_value_receiver _ _ _ _ _ _ Hop Hcall).
Qed.

(** C9.  Of the public operations only [CreateNewTheme] changes the client:
    after any other one the caller's client is the one it had, [themeID]
    and filter alike.  Over any sequence of operations the filter stays,
    a client whose [themeID] is not empty never gets an empty one back, and
    a sequence without [CreateNewTheme] leaves the client as it was. *)
Theorem themeID_changed_only_by_CreateNewTheme :
  (∀ fuel op c (w : World conn) c' w',
     is_CreateNewTheme op = false →
     call fuel op c w = Returns c' w' → c' = c)
  ∧ (∀ fuel ops c (w : World conn) c' w',
       calls fuel ops c w = Returns c' w' →
       filter c' = filter c
       ∧ (themeID c ≠ "" → themeID c' ≠ "")
       ∧ (forallb (λ op, negb (is_CreateNewTheme op)) ops = true → c' = c)).
Proof.
  split; [apply call_value_receiver|].
  intros fuel ops. induction ops as [|op ops IH]; intros c w c' w'.
  { simpl. by intros [= <- <-]. }
  simpl. unfold mbind at 1. unfold M_bind at 1.
  destruct (call fuel op c w) as [c1 w1| |] eqn:Hcall; [|done..].
  intros Hrest. destruct (IH _ _ _ _ Hrest) as (Hf & Hid & Hsame).
  destruct (call_keeps_bound _ _ _ _ _ _ Hcall) as [Hf1 Hid1].
  split; [congruence|]. split; [auto|].
  intros [Hop Hops]%andb_prop.
  apply negb_true_iff in Hop.
  rewrite (Hsame Hops). by apply (call_value_receiver fuel op c w c1 w1).
Qed.
End session_state.

(** C9 at a concrete session on a client bound to theme 5: a read, a
    creation that rebinds it to theme 9, and a delete. *)
Lemma themeID_changed_only_by_CreateNewTheme_witness :
  let f := mkFilter (λ _, false) in
  let ops := [OpGetInfo; OpCreateNewTheme "Bar"; OpDeleteAsset (mkAsset "a.js" "" "" "")] in
  let w := start [reply 200 (JObject [("theme", JObject [("id", JInt 5)])]);
                  reply 201 (JObject [("theme", JObject [("id", JInt 9)])]);
                  reply 200 (JObject [])] in
  let w' := mkWorld (conn := script) []
              [GET "/admin/themes/5.json";
               POST "/admin/themes.json" (ThemePayload (mkTheme 0 "Bar" "" false false));
               DELETE "/admin/themes/9/assets.json?asset%5Bkey%5D=a.js"] in
  calls 1 ops (mkClient "5" f) w = Returns (mkClient "9" f) w'
  ∧ themeID (mkClient "9" f) ≠ "".
Proof.
  intros f ops w w'.
  assert (calls 1 ops (mkClient "5" f) w = Returns (mkClient "9" f) w') as Hrun
    by reflexivity.
  split; [exact Hrun|].
  apply (proj1 (proj2 (proj2 themeID_changed_only_by_CreateNewTheme
                         1 ops (mkClient "5" f) w (mkClient "9" f) w' Hrun))).
  simpl. discriminate.
Defined.

(** ** The asset listing *)

Global Instance Key_le_total : Total Key_le.
Proof. intros a b. unfold Key_le. apply (total String.le). Qed.

(** Whatever way the assets are sorted by key, the keys come out in the one
    ascending order. *)
Lemma sort_by_Key_keys_unique (assets sorted : list Asset) :
  Sorted Key_le sorted → sorted ≡ₚ assets →
  Key <$> sorted = sorted_keys assets.
Proof.
  intros Hsorted Hperm. unfold sorted_keys.
  apply (Sorted_unique String.le).
  - apply (Sorted_fmap _ Key_le String.le); [|exact Hsorted]. by intros a b.
  - apply Sorted_merge_sort. apply _.
  - rewrite merge_sort_Permutation. by rewrite Hperm.
Qed.

Lemma sort_Slice_by_Key_keys (assets : list Asset) :
  Key <$> sort_Slice_by_Key assets = sorted_keys assets.
Proof.
  apply sort_by_Key_keys_unique.
  - apply Sorted_merge_sort. apply _.
  - apply merge_sort_Permutation.
Qed.

Lemma sorted_keys_StronglySorted (assets : list Asset) :
  StronglySorted String.le (sorted_keys assets).
Proof. apply StronglySorted_merge_sort; apply _. Qed.

Lemma sorted_keys_Permutation (assets : list Asset) :
  sorted_keys assets ≡ₚ Key <$> assets.
Proof. apply merge_sort_Permutation. Qed.

(** The loop condition, in terms of the keys that follow. *)
Lemma retained_shadowed_by_next (f : Filter) (pre : list Asset) (asset : Asset)
    (rest : list Asset) :
  retained f (pre ++ asset :: rest) (length pre) asset
  = negb (Match f (Key asset)) && negb (shadowed_by_next (Key asset) (Key <$> rest)).
Proof.
  unfold retained. f_equal. rewrite length_app. simpl.
  destruct rest as [|next rest]; simpl.
  - replace (length pre + 1 - 1) with (length pre) by lia.
    by rewrite Nat.eqb_refl.
  - replace (length pre =? length pre + S (S (length rest)) - 1) with false
      by (symmetry; apply Nat.eqb_neq; lia).
    rewrite lookup_app_r by lia.
    replace (length pre + 1 - length pre) with 1 by lia. reflexivity.
Qed.

(** The successor read by the loop is always there. *)
Lemma retained_read_in_range (assets : list Asset) (index : nat) :
  index < length assets → index ≠ length assets - 1 →
  is_Some (assets !! (index + 1)).
Proof. intros Hlt Hne. apply lookup_lt_is_Some. lia. Qed.

Lemma range_Assets_single_pass (f : Filter) (rest : list Asset) :
  ∀ pre filteredAssets,
    range_Assets f (pre ++ rest) (length pre) rest filteredAssets
    = filteredAssets ++ single_pass f (Key <$> rest).
Proof.
  induction rest as [|asset rest IH]; intros pre acc; simpl.
  { by rewrite app_nil_r. }
  rewrite retained_shadowed_by_next.
  replace (pre ++ asset :: rest) with ((pre ++ [asset]) ++ rest)
    by (by rewrite <- app_assoc).
  replace (S (length pre)) with (length (pre ++ [asset]))
    by (rewrite length_app; simpl; lia).
  rewrite IH.
  destruct (negb (Match f (Key asset)) && _); [|done].
  by rewrite <- app_assoc.
Qed.

(** The listing loop over the sorted assets is the single pass over the
    sorted keys. *)
Lemma filterAssets_single_pass (f : Filter) (assets : list Asset) :
  filterAssets f (sort_Slice_by_Key assets) = single_pass f (sorted_keys assets).
Proof.
  unfold filterAssets.
  pose proof (range_Assets_single_pass f (sort_Slice_by_Key assets) [] []) as Hloop.
  simpl in Hloop. rewrite Hloop.
  by rewrite sort_Slice_by_Key_keys.
Qed.

(** The same for any other way of sorting the assets by key, stable or
    not. *)
Lemma filterAssets_any_sort (f : Filter) (assets sorted : list Asset) :
  Sorted Key_le sorted → sorted ≡ₚ assets →
  filterAssets f sorted = single_pass f (sorted_keys assets).
Proof.
  intros Hsorted Hperm. unfold filterAssets.
  pose proof (range_Assets_single_pass f sorted [] []) as Hloop.
  simpl in Hloop. rewrite Hloop.
  by rewrite (sort_by_Key_keys_unique assets sorted).
Qed.

(** What the single pass keeps: the occurrences that are not ignored and not
    followed by their [.liquid] variant. *)
Lemma elem_of_single_pass (f : Filter) (l : list string) (x : string) :
  x ∈ single_pass f l
  ↔ ∃ pre post, l = pre ++ x :: post
                ∧ Match f x = false ∧ shadowed_by_next x post = false.
Proof.
  induction l as [|k rest IH]; simpl.
  { split; [by intros ?%elem_of_nil|]. intros (pre & post & Heq & _).
    by destruct pre. }
  destruct (Match f k) eqn:Hm; simpl;
    [|destruct (shadowed_by_next k rest) eqn:Hs; simpl].
  1,2: rewrite IH; split;
    [ intros (pre & post & -> & ? & ?); by exists (k :: pre), post
    | intros (pre & post & Heq & Hx & Hp); destruct pre as [|y pre];
      simplify_eq/=; [congruence | by exists pre, post] ].
  rewrite elem_of_cons, IH. split.
  - intros [->|(pre & post & -> & ? & ?)].
    + by exists [], rest.
    + by exists (k :: pre), post.
  - intros (pre & post & Heq & Hx & Hp). destruct pre as [|y pre]; simplify_eq/=.
    + by left.
    + right. by exists pre, post.
Qed.

Lemma single_pass_subseteq (f : Filter) (l : list string) (x : string) :
  x ∈ single_pass f l → x ∈ l.
Proof.
  rewrite elem_of_single_pass. intros (pre & post & -> & _).
  apply elem_of_app. right. by left.
Qed.

Lemma single_pass_StronglySorted (f : Filter) (l : list string) :
  StronglySorted String.le l → StronglySorted String.le (single_pass f l).
Proof.
  induction l as [|k rest IH]; simpl; [done|].
  rewrite StronglySorted_cons. intros [Hall Hrest].
  destruct (negb (Match f k) && _); [|by apply IH].
  apply StronglySorted_cons. split; [|by apply IH].
  rewrite Forall_forall in *. intros x Hx. apply Hall.
  by apply (single_pass_subseteq f).
Qed.

(** With no key ignored, the single pass is the two filters in sequence. *)
Lemma single_pass_nothing_ignored (f : Filter) (l : list string) :
  (∀ k, k ∈ l → Match f k = false) →
  single_pass f l = two_filters_in_sequence f l.
Proof.
  unfold two_filters_in_sequence.
  induction l as [|k rest IH]; intros Hno; simpl; [done|].
  assert (List.filter (λ k, negb (Match f k)) rest = rest) as Hid.
  { clear IH. induction rest as [|y rest IHr]; simpl; [done|].
    rewrite (Hno y) by (right; left). simpl. f_equal.
    apply IHr. intros z Hz. apply Hno. inv Hz; [left|right; by right]. }
  rewrite (Hno k) by left. simpl.
  rewrite IH by (intros z Hz; apply Hno; by right).
  rewrite Hid. by destruct (shadowed_by_next k rest).
Qed.

Lemma string_le_app (s t : string) : String.le s (s +:+ t).
Proof.
  unfold String.le, String.leb.
  induction s as [|a s IH]; simpl.
  - by destruct t.
  - change (String a s +:+ t) with (String a (s +:+ t)). simpl.
    unfold Ascii.compare. by rewrite N.compare_refl.
Qed.

Lemma string_length_app (s t : string) :
  String.length (s +:+ t) = String.length s + String.length t.
Proof.
  induction s as [|a s IH]; [done|].
  change (String a s +:+ t) with (String a (s +:+ t)). simpl. by rewrite IH.
Qed.

Lemma liquid_variant_ne (k : string) : k +:+ ".liquid" ≠ k.
Proof.
  intros Heq. apply (f_equal String.length) in Heq.
  rewrite string_length_app in Heq. simpl in Heq. lia.
Qed.

(** In a duplicate-free list of keys with nothing sorting between [K] and
    its [.liquid] variant, the variant is the successor of [K] in ascending
    order, and the single pass drops [K]. *)
Lemma single_pass_drops_adjacent_shadowed (f : Filter) (keys : list string) (K : string) :
  NoDup keys →
  K +:+ ".liquid" ∈ keys →
  (∀ k, k ∈ keys → String.le K k → String.le k (K +:+ ".liquid") →
        k = K ∨ k = K +:+ ".liquid") →
  K ∉ single_pass f (merge_sort String.le keys).
Proof.
  intros Hnodup Hliquid Hbetween.
  pose proof (merge_sort_Permutation String.le keys) as Hperm.
  assert (StronglySorted String.le (merge_sort String.le keys)) as Hsorted
    by (apply StronglySorted_merge_sort; apply _).
  rewrite <- Hperm in Hnodup, Hliquid.
  assert (∀ k, k ∈ merge_sort String.le keys → k ∈ keys) as Hin
    by (intros k; by rewrite Hperm).
  intros (pre & post & Heq & _ & Hnext)%elem_of_single_pass.
  rewrite Heq in Hnodup, Hliquid, Hsorted, Hin.
  apply NoDup_app in Hnodup as (_ & _ & [HKpost _]%NoDup_cons).
  apply elem_of_app in Hliquid as [Hpre|Hpost].
  - apply (liquid_variant_ne K). apply (anti_symm String.le).
    + apply (StronglySorted_app_1_elem_of _ _ _ _ _ Hsorted Hpre). by left.
    + apply string_le_app.
  - apply elem_of_cons in Hpost as [Hpost|Hpost]; [by apply liquid_variant_ne in Hpost|].
    apply StronglySorted_app_1_r in Hsorted.
    apply StronglySorted_cons in Hsorted as [HK Hpost_sorted].
    destruct post as [|next post]; [by apply elem_of_nil in Hpost|].
    simpl in Hnext. apply String.eqb_neq in Hnext.
    rewrite Forall_forall in HK.
    destruct (Hbetween next) as [->| ->].
    + apply Hin. apply elem_of_app. right. right. by left.
    + apply HK. by left.
    + apply elem_of_cons in Hpost as [->|Hpost]; [done|].
      apply StronglySorted_cons in Hpost_sorted as [Hnext_le _].
      rewrite Forall_forall in Hnext_le. by apply Hnext_le.
    + apply HKpost. by left.
    + done.
Qed.

(** A key that is not ignored and whose own [.liquid] variant is not among
    the keys is kept by the single pass. *)
Lemma single_pass_keeps_unshadowed (f : Filter) (keys : list string) (x : string) :
  x ∈ keys → Match f x = false → x +:+ ".liquid" ∉ keys →
  x ∈ single_pass f (merge_sort String.le keys).
Proof.
  intros Hx Hmatch Hnone.
  pose proof (merge_sort_Permutation String.le keys) as Hperm.
  rewrite <- Hperm in Hx, Hnone.
  apply list_elem_of_split in Hx as (pre & post & Heq).
  apply elem_of_single_pass. exists pre, post. split; [done|]. split; [done|].
  destruct post as [|next post]; [done|]. simpl.
  apply String.eqb_neq. intros ->. apply Hnone. rewrite Heq.
  apply elem_of_app. right. right. by left.
Qed.

Section listing.
Context {conn : Type} `{!httpAdapter conn}.

(** A listing call that gets a decodable response returns the single pass
    over the sorted keys. *)
Lemma GetAllAssets_success (c : Client) (w : World conn) (resp : Response)
    (n : conn) (r : assetsResponse) :
  let path := assetPath c {[ "fields" := "key" ]} in
  Get path (net w) = (inl resp, n) →
  StatusCode resp ≠ 404%Z →
  unmarshalResponse (Body resp) zero = (r, None) →
  GetAllAssets c w
  = Returns (single_pass (filter c) (sorted_keys (Assets r)), None)
      (mkWorld n (sent w ++ [GET path])).
Proof.
  intros path HGet Hstatus Hr.
  unfold GetAllAssets, mbind, M_bind, http_Get. fold path. rewrite HGet. simpl.
  apply Z.eqb_neq in Hstatus. rewrite Hstatus, Hr.
  by rewrite filterAssets_single_pass.
Qed.

(** C3, as the code has it.  [GetAllAssets] sorts the fetched keys
    ascending and makes one pass over them, keeping a key when it is not
    matched by the ignore predicate and its successor in the whole sorted
    list, ignored or not, is not the key with [".liquid"] appended.  The
    result is in ascending order; when none of the fetched keys is ignored
    it is what the two filters applied in sequence give; and the sorted
    keys a.js, a.js.liquid, b.css with no ignore rules give a.js.liquid,
    b.css. *)
Theorem GetAllAssets_single_pass (c : Client) (w : World conn) (resp : Response)
    (n : conn) (r : assetsResponse) :
  let path := assetPath c {[ "fields" := "key" ]} in
  Get path (net w) = (inl resp, n) →
  StatusCode resp ≠ 404%Z →
  unmarshalResponse (Body resp) zero = (r, None) →
  let sorted := sorted_keys (Assets r) in
  GetAllAssets c w
  = Returns (single_pass (filter c) sorted, None) (mkWorld n (sent w ++ [GET path]))
  ∧ Sorted String.le sorted
  ∧ sorted ≡ₚ Key <$> Assets r
  ∧ Sorted String.le (single_pass (filter c) sorted)
  ∧ ((∀ k, k ∈ Key <$> Assets r → Match (filter c) k = false) →
     single_pass (filter c) sorted = two_filters_in_sequence (filter c) sorted)
  ∧ single_pass (mkFilter (λ _, false)) ["a.js"; "a.js.liquid"; "b.css"]
    = ["a.js.liquid"; "b.css"].
Proof.
  intros path HGet Hstatus Hr sorted.
  pose proof (sorted_keys_StronglySorted (Assets r)) as Hsorted.
  split; [by apply (GetAllAssets_success c w resp n r)|].
  split; [by apply StronglySorted_Sorted|].
  split; [apply sorted_keys_Permutation|].
  split; [by apply StronglySorted_Sorted, single_pass_StronglySorted|].
  split; [|done].
  intros Hno. apply single_pass_nothing_ignored.
  intros k Hk. apply Hno. by rewrite <- (sorted_keys_Permutation (Assets r)).
Qed.

(** C4, as the code has it.  When the fetched keys are distinct and none of
    them sorts between [K] and [K] with [".liquid"] appended, a listing
    that has both in the response does not return [K]; so it does not
    return both.  The [".liquid"] key is returned when it is not ignored
    and has no [".liquid"] variant of its own among the keys. *)
Theorem GetAllAssets_drops_adjacent_shadowed (c : Client) (w : World conn)
    (resp : Response) (n : conn) (r : assetsResponse) (K : string) :
  let path := assetPath c {[ "fields" := "key" ]} in
  let keys := Key <$> Assets r in
  Get path (net w) = (inl resp, n) →
  StatusCode resp ≠ 404%Z →
  unmarshalResponse (Body resp) zero = (r, None) →
  NoDup keys →
  K ∈ keys →
  K +:+ ".liquid" ∈ keys →
  (∀ k, k ∈ keys → String.le K k → String.le k (K +:+ ".liquid") →
        k = K ∨ k = K +:+ ".liquid") →
  ∃ listed,
    GetAllAssets c w = Returns (listed, None) (mkWorld n (sent w ++ [GET path]))
    ∧ (K ∉ listed)
    ∧ (Match (filter c) (K +:+ ".liquid") = false →
       (K +:+ ".liquid") +:+ ".liquid" ∉ keys →
       K +:+ ".liquid" ∈ listed).
Proof.
  intros path keys HGet Hstatus Hr Hnodup HK Hliquid Hbetween.
  eexists. split; [by apply (GetAllAssets_success c w resp n r)|]. split.
  - by apply single_pass_drops_adjacent_shadowed.
  - intros Hmatch Hnone. by apply single_pass_keeps_unshadowed.
Qed.
End listing.

(** C3, on the code.  The fetched keys a.js and a.js.liquid, the second one
    ignored: the two filters in sequence leave a.js, the listing returns
    nothing. *)
Lemma GetAllAssets_ignored_successor_still_shadows :
  let f := mkFilter (String.eqb "a.js.liquid") in
  let c := mkClient "" f in
  let w := start [reply 200 (assets_json ["a.js"; "a.js.liquid"])] in
  GetAllAssets c w
  = Returns ([], None) (mkWorld [] [GET "/admin/assets.json?fields=key"])
  ∧ two_filters_in_sequence f (merge_sort String.le ["a.js"; "a.js.liquid"]) = ["a.js"].
Proof. by vm_compute. Qed.

(** C3 at a concrete response: b.css, a.js.liquid and a.js, nothing
    ignored. *)
Lemma GetAllAssets_single_pass_witness :
  let c := mkClient "" (mkFilter (λ _, false)) in
  let w := start [reply 200 (assets_json ["b.css"; "a.js.liquid"; "a.js"])] in
  GetAllAssets c w
  = Returns (["a.js.liquid"; "b.css"], None)
      (mkWorld [] [GET "/admin/assets.json?fields=key"]).
Proof.
  intros c w.
  pose (resp := mkResponse 200
          (mkBody (inl (Text (assets_json ["b.css"; "a.js.liquid"; "a.js"]))) None)).
  pose (r := mkAssetsResponse
          [mkAsset "b.css" "" "" ""; mkAsset "a.js.liquid" "" "" ""; mkAsset "a.js" "" "" ""]).
  refine (proj1 (GetAllAssets_single_pass c w resp [] r _ _ _)).
  - reflexivity.
  - done.
  - reflexivity.
Defined.

(** C4, on the code.  The fetched keys theme.css, theme.css.liquid and
    theme.css.bak: in ascending order theme.css.bak sits between the other
    two, and the listing returns both theme.css and theme.css.liquid. *)
Lemma GetAllAssets_returns_separated_pair :
  let c := mkClient "" (mkFilter (λ _, false)) in
  let w := start [reply 200 (assets_json
                    ["assets/theme.css"; "assets/theme.css.liquid";
                     "assets/theme.css.bak"])] in
  ∃ listed,
    GetAllAssets c w
    = Returns (listed, None) (mkWorld [] [GET "/admin/assets.json?fields=key"])
    ∧ listed = ["assets/theme.css"; "assets/theme.css.bak"; "assets/theme.css.liquid"]
    ∧ "assets/theme.css" ∈ listed
    ∧ "assets/theme.css" +:+ ".liquid" ∈ listed.
Proof.
  eexists. split; [by vm_compute|]. split; [done|].
  split; [by left|]. right. right. by left.
Qed.

(** C4 at a concrete response: b.css, a.js.liquid and a.js, with [K] the
    key a.js. *)
Lemma GetAllAssets_drops_adjacent_shadowed_witness :
  let c := mkClient "" (mkFilter (λ _, false)) in
  let w := start [reply 200 (assets_json ["b.css"; "a.js.liquid"; "a.js"])] in
  ∃ listed,
    GetAllAssets c w
    = Returns (listed, None) (mkWorld [] [GET "/admin/assets.json?fields=key"])
    ∧ ("a.js" ∉ listed)
    ∧ (Match (filter c) ("a.js" +:+ ".liquid") = false →
       ("a.js" +:+ ".liquid") +:+ ".liquid" ∉ ["b.css"; "a.js.liquid"; "a.js"] →
       "a.js" +:+ ".liquid" ∈ listed).
Proof.
  intros c w.
  pose (resp := mkResponse 200
          (mkBody (inl (Text (assets_json ["b.css"; "a.js.liquid"; "a.js"]))) None)).
  pose (r := mkAssetsResponse
          [mkAsset "b.css" "" "" ""; mkAsset "a.js.liquid" "" "" ""; mkAsset "a.js" "" "" ""]).
  apply (GetAllAssets_drops_adjacent_shadowed c w resp [] r "a.js").
  - reflexivity.
  - done.
  - reflexivity.
  - apply (bool_decide_unpack _). by vm_compute.
  - apply (bool_decide_unpack _). by vm_compute.
  - apply (bool_decide_unpack _). by vm_compute.
  - intros k Hk HK Hliquid. simpl in Hk.
    apply elem_of_cons in Hk as [->|Hk].
    { exfalso. revert Hliquid. by vm_compute. }
    apply elem_of_cons in Hk as [->|Hk]; [by right|].
    apply elem_of_cons in Hk as [->|Hk]; [by left|].
    by apply elem_of_nil in Hk.
Defined.

(** ** Requests, transport failures and status codes, operation by operation *)

Section round_trips.
Context {conn : Type} `{!httpAdapter conn}.

Lemma ready_not_empty (s : string) : negb (String.eqb s "") = true → String.eqb s "" = false.
Proof. by intros ->%negb_true_iff. Qed.

(** Running an operation that passed its check: the first request is made,
    and the rest depends on the answer. *)
Ltac first_request Hready :=
  unfold report, CreateAsset, GetShop, Themes, CreateNewTheme, GetInfo,
    PublishTheme, GetAllAssets, GetAsset, DeleteAsset; simpl;
  try rewrite (ready_not_empty _ Hready);
  unfold mbind, M_bind, mret, M_ret, http_Get, http_Post, http_Put, http_Delete;
  simpl.

(** X1.  An operation that is not let through by its check returns without
    a request; any other one, the asset writes apart, makes exactly one
    request, the one of its endpoint, and returns. *)
Theorem one_request_per_operation (fuel : nat) (op : Operation) (c : Client)
    (w : World conn) :
  is_asset_write op = false →
  ∃ e,
    report fuel op c w
    = Returns e
        (if ready op c
         then mkWorld (perform (first_call op c) (net w)).2
                (sent w ++ [first_call op c])
         else w).
Proof.
  intros Hop. destruct (ready op c) eqn:Hready.
  - destruct op; try done; first_request Hready;
      match goal with
      | |- context [match ?call (net w) with _ => _ end] =>
          destruct (call (net w)) as [[resp|err] n]; simpl; [|by eexists]
      end;
      repeat match goal with
      | |- context [if (StatusCode ?x =? ?k)%Z then _ else _] =>
          destruct (StatusCode x =? k)%Z; simpl; [by eexists|]
      end;
      match goal with
      | |- context [unmarshalResponse ?b ?z] =>
          destruct (unmarshalResponse b z) as [r [err'|]]; simpl
      end;
      try (by eexists);
      match goal with
      | |- context [0 <? size ?m] => destruct (0 <? size m); simpl; by eexists
      end.
  - destruct op; try done; simpl in Hready; apply negb_false_iff in Hready;
      unfold report, CreateNewTheme, GetInfo, PublishTheme; rewrite Hready;
      by eexists.
Qed.

(** X2.  When the transport fails the first request of an operation, the
    operation returns the transport's error as it is, having made that one
    request. *)
Theorem transport_error_returned_as_is (fuel : nat) (op : Operation) (c : Client)
    (w : World conn) (err : error) (n : conn) :
  ready op c = true →
  perform (first_call op c) (net w) = (inr err, n) →
  report (S fuel) op c w
  = Returns (Some err) (mkWorld n (sent w ++ [first_call op c])).
Proof.
  intros Hready Hfail.
  destruct op; simpl in Hfail; first_request Hready; by rewrite Hfail.
Qed.

(** X3.  A 404 answer to the first request is reported by its status alone,
    whatever the body holds: as the shop domain not found by [GetShop], as
    the theme not found by [GetInfo], [PublishTheme] and [GetAllAssets], and
    as not part of the theme by the calls on one asset. *)
Theorem status_404_reported_before_decoding (fuel : nat) (op : Operation)
    (c : Client) (w : World conn) (resp : Response) (n : conn) (e : error) :
  ready op c = true →
  perform (first_call op c) (net w) = (inl resp, n) →
  StatusCode resp = 404%Z →
  not_found op = Some e →
  report (S fuel) op c w
  = Returns (Some e) (mkWorld n (sent w ++ [first_call op c])).
Proof.
  intros Hready Hresp Hstatus Hnf.
  destruct op; try done; simpl in Hresp, Hnf; injection Hnf as <-;
    first_request Hready; rewrite Hresp; simpl; by rewrite Hstatus.
Qed.

End round_trips.

(** ** No partial results *)

Section zero_on_error.
Context {conn : Type} `{!httpAdapter conn}.

Ltac returned_with_error :=
  unfold mbind, M_bind, mret, M_ret, http_Get, http_Post; simpl;
  match goal with
  | |- context [match ?call (net ?w) with _ => _ end] =>
      destruct (call (net w)) as [[resp|err] n]; simpl; [|by intros [= <- _ _]]
  end;
  repeat match goal with
  | |- context [if (StatusCode ?x =? ?k)%Z then _ else _] =>
      destruct (StatusCode x =? k)%Z; simpl; [by intros [= <- _ _]|]
  end;
  match goal with
  | |- context [unmarshalResponse ?b ?z] =>
      destruct (unmarshalResponse b z) as [r [err'|]]; simpl
  end;
  try (by intros [= <- _ _]); try (by intros [=]).

(** X5.  An operation that returns an error returns no data with it: the
    shop, theme or asset is the zero value and the list is empty; and
    [CreateNewTheme] leaves the client as it was. *)
Theorem error_comes_with_zero_value (c : Client) (w : World conn) (e : error)
    (w' : World conn) :
  (∀ shop, GetShop c w = Returns (shop, Some e) w' → shop = zero)
  ∧ (∀ themes, Themes c w = Returns (themes, Some e) w' → themes = [])
  ∧ (∀ name c' theme,
       CreateNewTheme c name w = Returns (c', (theme, Some e)) w' →
       c' = c ∧ theme = zero)
  ∧ (∀ theme, GetInfo c w = Returns (theme, Some e) w' → theme = zero)
  ∧ (∀ keys, GetAllAssets c w = Returns (keys, Some e) w' → keys = [])
  ∧ (∀ filename asset,
       GetAsset c filename w = Returns (asset, Some e) w' → asset = zero).
Proof.
  repeat split.
  - intros shop. unfold GetShop. returned_with_error.
  - intros themes. unfold Themes. returned_with_error.
  - revert H. unfold CreateNewTheme.
    destruct (String.eqb name ""); [by intros [= <- _ _]|].
    unfold mbind, M_bind, http_Post.
    destruct (Post _ _ (net w)) as [[resp|err] n]; simpl; [|by intros [= <- _ _]].
    destruct (unmarshalResponse (Body resp) zero) as [r [err'|]];
      [by intros [= <- _ _]|].
    destruct (0 <? size (tr_Errors r)); [by intros [= <- _ _]|by intros [=]].
  - revert H. unfold CreateNewTheme.
    destruct (String.eqb name ""); [by intros [= _ <- _]|].
    unfold mbind, M_bind, http_Post.
    destruct (Post _ _ (net w)) as [[resp|err] n]; simpl; [|by intros [= _ <- _]].
    destruct (unmarshalResponse (Body resp) zero) as [r [err'|]];
      [by intros [= _ <- _]|].
    destruct (0 <? size (tr_Errors r)); [by intros [= _ <- _]|by intros [=]].
  - intros theme. unfold GetInfo.
    destruct (String.eqb (themeID c) ""); [by intros [= <- _ _]|].
    returned_with_error.
  - intros keys. unfold GetAllAssets. returned_with_error.
  - intros filename asset. unfold GetAsset. returned_with_error.
Qed.
End zero_on_error.

(** ** The error aggregator *)

Lemma append_messages (f : string → string) (errs : list string) :
  ∀ out, foldl (λ out err, out ++ [f err]) out errs = out ++ (f <$> errs).
Proof.
  induction errs as [|err errs IH]; intros out; simpl.
  - by rewrite app_nil_r.
  - rewrite IH. by rewrite <- app_assoc.
Qed.

(** [toMessages] as a flattening of the map's entries. *)
Lemma toMessages_bind (a : gmap string (list string)) :
  toMessages a
  = map_to_list a ≫= (λ '(attr, errs), (λ err, attr +:+ " " +:+ err) <$> errs).
Proof.
  unfold toMessages.
  assert (∀ l out,
    foldl (λ out '(attr, errs),
             foldl (λ out err, out ++ [attr +:+ " " +:+ err]) out errs) out l
    = out ++ (l ≫= (λ '(attr, errs), (λ err, attr +:+ " " +:+ err) <$> errs)))
    as Hgen.
  { induction l as [|[attr errs] l IH]; intros out; simpl.
    - by rewrite app_nil_r.
    - rewrite IH, (append_messages (λ err, attr +:+ " " +:+ err)).
      by rewrite <- app_assoc. }
  by rewrite Hgen.
Qed.


(** The sentence and its items. *)
Lemma prefix_app (x t : string) : String.prefix x (x +:+ t) = true.
Proof.
  induction x as [|a x IH]; [by destruct t|].
  change (String a x +:+ t) with (String a (x +:+ t)). simpl.
  by destruct (ascii_dec a a).
Qed.

Lemma Contains_prefix (s x : string) :
  String.prefix x s = true → strings_Contains s x = true.
Proof. destruct s; simpl; by intros ->. Qed.

Lemma Contains_here (x t : string) : strings_Contains (x +:+ t) x = true.
Proof. apply Contains_prefix, prefix_app. Qed.

Lemma Contains_app_r (s t x : string) :
  strings_Contains t x = true → strings_Contains (s +:+ t) x = true.
Proof.
  intros Ht. induction s as [|a s IH]; [done|].
  change (String a s +:+ t) with (String a (s +:+ t)). simpl.
  rewrite IH. apply orb_true_r.
Qed.

Lemma Contains_self (x : string) : strings_Contains x x = true.
Proof.
  pose proof (Contains_here x "") as H.
  assert (x +:+ "" = x) as Heq.
  { clear H. induction x as [|a x IH]; [done|].
    change (String a x +:+ "") with (String a (x +:+ "")). by rewrite IH. }
  by rewrite Heq in H.
Qed.

Lemma oxford_Contains (items : list string) (x : string) :
  x ∈ items → strings_Contains (oxford items) x = true.
Proof.
  induction items as [|y items IH]; [by intros ?%elem_of_nil|].
  intros Hx. destruct items as [|z items].
  - apply list_elem_of_singleton in Hx as ->. simpl.
    apply (Contains_app_r "and "). apply Contains_self.
  - change (oxford (y :: z :: items)) with (y +:+ ", " +:+ oxford (z :: items)).
    apply elem_of_cons in Hx as [->|Hx].
    + apply Contains_here.
    + apply Contains_app_r, Contains_app_r. by apply IH.
Qed.

Lemma toSentence_sentence (items : list string) : toSentence items = sentence items.
Proof.
  destruct items as [|a [|b [|c rest]]]; [done..|].
  destruct (exists_last (l := a :: b :: c :: rest)) as (init & z & Heq); [done|].
  assert (2 ≤ length init) as Hlen.
  { apply (f_equal length) in Heq. rewrite length_app in Heq. simpl in Heq. lia. }
  rewrite Heq at 1. rewrite toSentence_snoc by done.
  rewrite Join_and_last_oxford by (by intros ->).
  by rewrite <- Heq.
Qed.

Lemma toSentence_Contains (items : list string) (x : string) :
  x ∈ items → strings_Contains (toSentence items) x = true.
Proof.
  intros Hx. rewrite toSentence_sentence.
  destruct items as [|a [|b [|c rest]]].
  - by apply elem_of_nil in Hx.
  - apply list_elem_of_singleton in Hx as ->. apply Contains_self.
  - simpl. apply elem_of_cons in Hx as [->|Hx]; [apply Contains_here|].
    apply list_elem_of_singleton in Hx as ->.
    apply Contains_app_r, Contains_app_r, Contains_self.
  - by apply oxford_Contains.
Qed.

(** X7.  Nothing is lost in the sentence: every item handed to [toSentence]
    occurs in its result, and so the sentence made of a map of field errors
    holds every message with its attribute. *)
Theorem toSentence_keeps_every_item :
  (∀ items x, x ∈ items → strings_Contains (toSentence items) x = true)
  ∧ (∀ (a : gmap string (list string)) attr errs err,
       a !! attr = Some errs → err ∈ errs →
       strings_Contains (toSentence (toMessages a)) (attr +:+ " " +:+ err) = true).
Proof.
  split; [apply toSentence_Contains|].
  intros a attr errs err Hentry Herr. apply toSentence_Contains.
  rewrite toMessages_bind. apply list_elem_of_bind.
  exists (attr, errs). split.
  - apply list_elem_of_fmap. by exists err.
  - by apply elem_of_map_to_list.
Qed.

(** ** What the decoder lets through *)

Section decoder_errors.
Context {A : Type} {UA : Unmarshaler A} {UR : Unmarshaler reqErr}.

(** X8.  The error of [unmarshalResponse] is "malformed response", the
    error of closing the body, or an error made of a non-empty string; what
    the two decodes report themselves is never returned.  And when it returns
    no error, the body was read and closed and at least one of the two
    decodes went through. *)
Theorem unmarshalResponse_error_shapes (body : ReadCloser) (data : A) :
  (∀ e, (unmarshalResponse body data).2 = Some e →
        e = ErrMalformedResponse ∨ Close body = Some e
        ∨ ∃ s, s ≠ "" ∧ e = errors_New s)
  ∧ ((unmarshalResponse body data).2 = None →
     ∃ reqBody, ReadAll body = inl reqBody ∧ Close body = None
                ∧ ((json_Unmarshal reqBody data).2 = None
                   ∨ (json_Unmarshal reqBody (zero : reqErr)).2 = None)).
Proof.
  unfold unmarshalResponse.
  destruct (ReadAll body) as [reqBody|readErr]; simpl.
  2: { split; [intros e [= <-]; by left|done]. }
  destruct (Close body) as [closeErr|]; simpl.
  { split; [intros e [= <-]; right; by left|done]. }
  destruct (json_Unmarshal reqBody data) as [d mainErr] eqn:Hmain.
  destruct (json_Unmarshal reqBody zero) as [re basicErr] eqn:Hbasic. simpl.
  assert (∀ x, (if 0 <? String.length (re_Errors re)
                then (d, Some (errors_New (re_Errors re))) else (d, None)).2 = Some x →
               ∃ s, s ≠ "" ∧ x = errors_New s) as Hflat.
  { intros x. destruct (re_Errors re) as [|a s] eqn:Hre; simpl; [done|].
    intros [= <-]. by exists (String a s). }
  assert (mainErr = None ∨ basicErr = None →
          ∃ reqBody0, inl (B := error) reqBody = inl reqBody0
                      ∧ None = None (A := error)
                      ∧ ((json_Unmarshal reqBody0 data).2 = None
                         ∨ (json_Unmarshal reqBody0 (zero : reqErr)).2 = None))
    as Hok.
  { intros Hone. exists reqBody. rewrite Hmain, Hbasic. by simpl. }
  destruct mainErr as [e1|], basicErr as [e2|]; simpl; split.
  - intros x [= <-]. by left.
  - done.
  - intros x Hx. right. right. by apply Hflat.
  - intros _. apply Hok. by right.
  - intros x Hx. right. right. by apply Hflat.
  - intros _. apply Hok. by left.
  - intros x Hx. right. right. by apply Hflat.
  - intros _. apply Hok. by left.
Qed.
End decoder_errors.

Local Arguments String.eqb : simpl never.
Local Arguments lower : simpl never.

(** The flat-error decode of an object with no [errors] member stores
    nothing and reports nothing. *)
Lemma find_field_errors_only {S} (st : field_store S) (k : string) :
  String.eqb (lower k) "errors" = false → find_field [("errors", st)] k = None.
Proof.
  intros Hk. unfold find_field. simpl.
  destruct (String.eqb_spec "errors" k) as [<-|_]; [done|].
  change (lower "errors") with "errors".
  by rewrite String.eqb_sym, Hk.
Qed.

Lemma store_fields_errors_only {S} (st : field_store S) (members : list (string * json)) :
  no_errors_member members = true →
  ∀ s, store_fields [("errors", st)] members s = (s, None).
Proof.
  induction members as [|[k v] members IH]; intros Hno s; [done|].
  simpl in Hno. apply andb_prop in Hno as [Hk Hno]. apply negb_true_iff in Hk.
  simpl. rewrite (find_field_errors_only st k Hk). by apply IH.
Qed.

Lemma store_fields_app {S} (fields : list (string * field_store S))
    (pre rest : list (string * json)) (s : S) :
  (∀ k v, (k, v) ∈ pre → find_field fields k = None) →
  store_fields fields (pre ++ rest) s = store_fields fields rest s.
Proof.
  induction pre as [|[k v] pre IH]; intros Hpre; [done|]. simpl.
  rewrite (Hpre k v) by left. apply IH. intros ???. eapply Hpre. by right.
Qed.

Lemma unmarshalResponse_object {A} `{Unmarshaler A} (status : Z)
    (members : list (string * json)) (data : A) :
  no_errors_member members = true →
  unmarshalResponse (Body (object_response status members)) data
  = ((store (JObject members) data).1, None).
Proof.
  intros Hno.
  assert (json_Unmarshal (Text (JObject members)) (zero : reqErr) = (zero, None))
    as Hflat.
  { unfold json_Unmarshal, store, reqErr_unmarshal, struct_store, field.
    by apply store_fields_errors_only. }
  unfold unmarshalResponse, object_response. cbn [Body ReadAll Close]. cbv zeta.
  rewrite Hflat.
  change (json_Unmarshal (Text (JObject members)) data)
    with (store (JObject members) data).
  by destruct (store (JObject members) data) as [d [mainErr|]].
Qed.

(** The response structs keep an empty map of field errors when the object
    has no [errors] member. *)
Lemma find_field_beside_errors {S} (name : string) (st st' : field_store S)
    (k : string) :
  String.eqb (lower k) "errors" = false →
  find_field [(name, st); ("errors", st')] k = Some st
  ∨ find_field [(name, st); ("errors", st')] k = None.
Proof.
  intros Hk. unfold find_field. cbn [List.find fst snd].
  destruct (String.eqb name k); [by left|].
  destruct (String.eqb_spec "errors" k) as [<-|_]; [done|].
  destruct (String.eqb (lower name) (lower k)); [by left|].
  change (lower "errors") with "errors". rewrite String.eqb_sym, Hk. by right.
Qed.

Lemma store_fields_keeps {S B} (proj : S → B) (fields : list (string * field_store S))
    (members : list (string * json)) :
  (∀ k v, (k, v) ∈ members →
     find_field fields k = None
     ∨ ∃ st, find_field fields k = Some st ∧ ∀ v s, proj (st v s).1 = proj s) →
  ∀ s, proj (store_fields fields members s).1 = proj s.
Proof.
  induction members as [|[k v] members IH]; intros Hfields s; [done|].
  assert (∀ s, proj (store_fields fields members s).1 = proj s) as IH'.
  { apply IH. intros ???. eapply Hfields. by right. }
  simpl. destruct (Hfields k v) as [->|(st & -> & Hst)]; [by left|by apply IH'|].
  specialize (Hst v s). destruct (st v s) as [s' e]. specialize (IH' s').
  destruct (store_fields fields members s') as [s'' e'']. simpl in *. congruence.
Qed.

Lemma no_errors_member_elem (members : list (string * json)) (k : string) (v : json) :
  no_errors_member members = true → (k, v) ∈ members →
  String.eqb (lower k) "errors" = false.
Proof.
  unfold no_errors_member. rewrite forallb_forall. intros Hno Hin.
  apply negb_true_iff. apply (Hno (k, v)). by apply list_elem_of_In.
Qed.

Lemma themeResponse_no_errors (members : list (string * json)) :
  no_errors_member members = true →
  ∀ r, tr_Errors (store (JObject members) r).1 = tr_Errors r.
Proof.
  intros Hno. unfold store, themeResponse_unmarshal, struct_store, field.
  apply store_fields_keeps. intros k v Hin.
  destruct (find_field_beside_errors (S := themeResponse) "theme"
    (λ v s, let '(a, e) := store v (tr_Theme s) in (mkThemeResponse a (tr_Errors s), e))
    (λ v s, let '(a, e) := store v (tr_Errors s) in (mkThemeResponse (tr_Theme s) a, e))
    k (no_errors_member_elem _ _ _ Hno Hin)) as [Hf|Hf]; [|by left].
  right. eexists. split; [exact Hf|]. intros v' s. cbv beta.
  by destruct (store v' (tr_Theme s)).
Qed.

Lemma assetResponse_no_errors (members : list (string * json)) :
  no_errors_member members = true →
  ∀ r, ar_Errors (store (JObject members) r).1 = ar_Errors r.
Proof.
  intros Hno. unfold store, assetResponse_unmarshal, struct_store, field.
  apply store_fields_keeps. intros k v Hin.
  destruct (find_field_beside_errors (S := assetResponse) "asset"
    (λ v s, let '(a, e) := store v (ar_Asset s) in (mkAssetResponse a (ar_Errors s), e))
    (λ v s, let '(a, e) := store v (ar_Errors s) in (mkAssetResponse (ar_Asset s) a, e))
    k (no_errors_member_elem _ _ _ Hno Hin)) as [Hf|Hf]; [|by left].
  right. eexists. split; [exact Hf|]. intros v' s. cbv beta.
  by destruct (store v' (ar_Asset s)).
Qed.



Lemma flat_error_member (pre post : list (string * json)) (msg : string) :
  no_errors_member pre = true → no_errors_member post = true →
  json_Unmarshal (Text (JObject (pre ++ ("errors", JString msg) :: post)))
    (zero : reqErr) = (mkReqErr msg, None).
Proof.
  intros Hpre Hpost.
  unfold json_Unmarshal, store, reqErr_unmarshal, struct_store, field.
  rewrite store_fields_app.
  2: { intros k v Hin. apply find_field_errors_only.
       by apply (no_errors_member_elem pre k v). }
  cbn [store_fields]. unfold find_field at 1. cbn [List.find fst snd].
  change (String.eqb "errors" "errors") with true. simpl.
  match goal with
  | |- (let '(_, _) := ?t in _) = _ => replace t with (mkReqErr msg, @None error)
  end; [done|].
  symmetry. by apply store_fields_errors_only.
Qed.



(** ** Answers that count as success *)

Section success.
Context {conn : Type} `{!httpAdapter conn}.

Lemma not_mapped (status k : Z) : status ≠ k → (status =? k)%Z = false.
Proof. apply Z.eqb_neq. Qed.


End success.

(** ** More on the asset listing *)

Lemma single_pass_sublist (f : Filter) (l : list string) :
  single_pass f l `sublist_of` l.
Proof.
  induction l as [|k rest IH]; simpl; [constructor|].
  destruct (negb (Match f k) && _); by constructor.
Qed.

(** X13.  The keys [GetAllAssets] returns are fetched keys that the filter
    does not match, in ascending order and as often at most as they were
    fetched: the list is a sublist of the sorted keys, so it is no longer
    than the response and has no duplicates when the response has none. *)
Theorem listed_keys_are_fetched_and_not_ignored (f : Filter) (assets : list Asset) :
  let listed := filterAssets f (sort_Slice_by_Key assets) in
  (∀ k, k ∈ listed → k ∈ Key <$> assets ∧ Match f k = false)
  ∧ listed `sublist_of` sorted_keys assets
  ∧ length listed ≤ length assets
  ∧ (NoDup (Key <$> assets) → NoDup listed).
Proof.
  intros listed. unfold listed. rewrite filterAssets_single_pass.
  pose proof (single_pass_sublist f (sorted_keys assets)) as Hsub.
  pose proof (sorted_keys_Permutation assets) as Hperm.
  split; [|split; [done|split]].
  - intros k Hk. split.
    + rewrite <- Hperm. by apply (single_pass_subseteq f).
    + by apply elem_of_single_pass in Hk as (_ & _ & _ & Hm & _).
  - apply sublist_length in Hsub.
    apply Permutation_length in Hperm. rewrite length_fmap in Hperm. lia.
  - intros Hnodup. eapply sublist_NoDup; [|exact Hsub]. by rewrite Hperm.
Qed.

Lemma single_pass_without_pairs (f : Filter) (l : list string) :
  (∀ k, k ∈ l → k +:+ ".liquid" ∉ l) →
  single_pass f l = List.filter (λ k, negb (Match f k)) l.
Proof.
  induction l as [|k rest IH]; intros Hnone; [done|]. simpl.
  assert (shadowed_by_next k rest = false) as ->.
  { destruct rest as [|next rest]; [done|]. simpl.
    apply String.eqb_neq. intros ->.
    apply (Hnone k); [by left|]. right. by left. }
  rewrite andb_true_r, IH; [done|].
  intros k' Hk' Hin. apply (Hnone k'); by right.
Qed.

(** X14.  When no fetched key is another fetched key with [".liquid"]
    appended, [GetAllAssets] returns the fetched keys in ascending order
    with the ignored ones left out, and nothing else is dropped. *)
Theorem listing_without_shadow_pairs (f : Filter) (assets : list Asset) :
  (∀ k, k ∈ Key <$> assets → k +:+ ".liquid" ∉ Key <$> assets) →
  filterAssets f (sort_Slice_by_Key assets)
  = List.filter (λ k, negb (Match f k)) (sorted_keys assets).
Proof.
  intros Hnone. rewrite filterAssets_single_pass.
  apply single_pass_without_pairs.
  pose proof (sorted_keys_Permutation assets) as Hperm.
  intros k. rewrite !Hperm. apply Hnone.
Qed.

(** X14 at a concrete response: b.css and a.js, with b.css ignored. *)
Lemma listing_without_shadow_pairs_witness :
  filterAssets (mkFilter (String.eqb "b.css"))
    (sort_Slice_by_Key [mkAsset "b.css" "" "" ""; mkAsset "a.js" "" "" ""])
  = ["a.js"].
Proof.
  rewrite listing_without_shadow_pairs; [reflexivity|].
  intros k Hk Hliquid. simpl in Hk, Hliquid.
  repeat (apply elem_of_cons in Hk as [->|Hk]);
    [| |by apply elem_of_nil in Hk];
    revert Hliquid; apply (bool_decide_unpack _); by vm_compute.
Defined.

(** X15.  The order in which the server lists the assets does not matter:
    two responses with the same keys, in any order, give the same listing. *)
Theorem listing_independent_of_response_order (f : Filter)
    (assets assets' : list Asset) :
  Key <$> assets ≡ₚ Key <$> assets' →
  filterAssets f (sort_Slice_by_Key assets)
  = filterAssets f (sort_Slice_by_Key assets').
Proof.
  intros Hperm. rewrite !filterAssets_single_pass. f_equal.
  apply (Sorted_unique String.le).
  - apply StronglySorted_Sorted, sorted_keys_StronglySorted.
  - apply StronglySorted_Sorted, sorted_keys_StronglySorted.
  - by rewrite !sorted_keys_Permutation.
Qed.

(** X15 at a concrete pair of responses. *)
Lemma listing_independent_of_response_order_witness :
  filterAssets (mkFilter (λ _, false))
    (sort_Slice_by_Key [mkAsset "b.css" "x" "" ""; mkAsset "a.js" "" "" ""])
  = filterAssets (mkFilter (λ _, false))
      (sort_Slice_by_Key [mkAsset "a.js" "" "" "y"; mkAsset "b.css" "" "" ""]).
Proof.
  apply listing_independent_of_response_order. simpl. apply Permutation_swap.
Defined.

(** ** The asset path *)

(** X16.  The asset path is the store-wide one for a client with no theme id
    and the one of the theme otherwise; a query of one parameter is appended
    after a question mark, name and value escaped. *)
Theorem assetPath_with_one_parameter (c : Client) (k v : string) :
  assetPath c ∅
  = (if String.eqb (themeID c) "" then "/admin/assets.json"
     else "/admin/themes/" +:+ themeID c +:+ "/assets.json")
  ∧ assetPath c {[ k := v ]}
    = assetPath c ∅ +:+ "?" +:+ url_QueryEscape k +:+ "=" +:+ url_QueryEscape v.
Proof.
  unfold assetPath. rewrite map_size_singleton, map_size_empty.
  change (0 <? 1) with true. change (0 <? 0) with false. cbv iota.
  unfold url_Values_Encode. rewrite map_to_list_singleton. simpl.
  rewrite lookup_singleton_eq. simpl.
  by destruct (String.eqb (themeID c) "").
Qed.

(** ** More on the asset update *)

Section update_calls.
Context {conn : Type} `{!httpAdapter conn}.

(** X17.  Whenever a call of [UpdateAsset] ends, by a return or by a panic,
    the requests it made are some rounds of the update followed by the
    delete of the [".liquid"] key, and then one last update: every delete
    is followed by an update, and the call never ends on a delete. *)
Theorem UpdateAsset_requests_alternate (fuel : nat) (c : Client) (asset : Asset) :
  let update := PUT (assetPath c ∅) (AssetPayload asset) in
  let delete := DELETE (assetPath c {[ "asset[key]" := Key asset +:+ ".liquid" ]}) in
  ∀ (w w' : World conn),
    final_world (UpdateAsset fuel c asset w) = Some w' →
    ∃ rounds, rounds < fuel
      ∧ sent w' = sent w ++ concat (replicate rounds [update; delete]) ++ [update].
Proof.
  intros update delete.
  induction fuel as [|fuel IH]; intros w w'; [done|].
  simpl. unfold mbind, M_bind, http_Put. fold update.
  destruct (Put _ _ (net w)) as [[resp|err] n]; simpl.
  2: { intros [= <-]. exists 0. split; [lia|done]. }
  destruct (StatusCode resp =? 404)%Z.
  { intros [= <-]. exists 0. split; [lia|done]. }
  destruct (unmarshalResponse (Body resp) zero) as [r [err|]].
  { intros [= <-]. exists 0. split; [lia|done]. }
  destruct (0 <? size (ar_Errors r)).
  2: { intros [= <-]. exists 0. split; [lia|done]. }
  destruct (ar_Errors r !! "asset") as [msgs|].
  2: { intros [= <-]. exists 0. split; [lia|done]. }
  unfold overwrite_conflict. destruct (StatusCode resp =? 422)%Z.
  2: { intros [= <-]. exists 0. split; [lia|done]. }
  destruct (msgs !! 0) as [msg|].
  2: { intros [= <-]. exists 0. split; [lia|done]. }
  simpl. destruct (strings_Contains msg _).
  2: { intros [= <-]. exists 0. split; [lia|done]. }
  destruct (DeleteAsset_returns c (mkAsset (Key asset +:+ ".liquid") "" "" "")
              (mkWorld n (sent w ++ [update]))) as [del_err Hdel].
  simpl in Hdel. fold delete in Hdel. rewrite Hdel.
  intros Hw. destruct (IH _ _ Hw) as (rounds & Hlt & Hsent).
  exists (S rounds). split; [lia|].
  rewrite Hsent. simpl. by rewrite <- !app_assoc.
Qed.

(** X18.  Field errors that do not start the retry: when the map of field
    errors has the key ["asset"] and either the status is not 422 or the
    first message lacks the conflict phrase, [UpdateAsset] returns the
    sentence of the ["asset"] messages alone, without the attribute in front
    and without the messages of any other attribute, after its one request.
    With a status other than 422 this holds for an empty list of messages
    too, and the error text is then empty. *)
Theorem UpdateAsset_reports_asset_messages_alone (fuel : nat) (c : Client)
    (asset : Asset) (w : World conn) (resp : Response) (n : conn)
    (r : assetResponse) (msgs : list string) :
  Put (assetPath c ∅) (AssetPayload asset) (net w) = (inl resp, n) →
  StatusCode resp ≠ 404%Z →
  unmarshalResponse (Body resp) zero = (r, None) →
  ar_Errors r !! "asset" = Some msgs →
  StatusCode resp ≠ 422%Z
  ∨ (∃ msg rest, msgs = msg :: rest
       ∧ strings_Contains msg "Cannot overwrite generated asset" = false) →
  UpdateAsset (S fuel) c asset w
  = Returns (Some (errors_New (toSentence msgs)))
      (mkWorld n (sent w ++ [PUT (assetPath c ∅) (AssetPayload asset)]))
  ∧ (msgs = [] → toSentence msgs = "").
Proof.
  intros HPut H404 Hr Hasset Hcase. split; [|by intros ->].
  simpl. unfold mbind, M_bind, http_Put. rewrite HPut. simpl.
  rewrite (not_mapped _ _ H404), Hr, (lookup_Some_size_pos _ _ _ Hasset), Hasset.
  unfold overwrite_conflict.
  destruct Hcase as [H422|(msg & rest & -> & Hmsg)].
  - by rewrite (not_mapped _ _ H422).
  - destruct (StatusCode resp =? 422)%Z; [|done]. simpl. by rewrite Hmsg.
Qed.

(** X19.  The run-time error of [UpdateAsset], for any transport: a 422
    answer whose decoded field errors have the key ["asset"] with no message
    under it ends the call in an index-out-of-range panic right after the
    update request. *)
Theorem UpdateAsset_panics_on_empty_asset_messages (fuel : nat) (c : Client)
    (asset : Asset) (w : World conn) (resp : Response) (n : conn)
    (r : assetResponse) :
  Put (assetPath c ∅) (AssetPayload asset) (net w) = (inl resp, n) →
  StatusCode resp = 422%Z →
  unmarshalResponse (Body resp) zero = (r, None) →
  ar_Errors r !! "asset" = Some [] →
  UpdateAsset (S fuel) c asset w
  = Panics "index out of range [0] with length 0"
      (mkWorld n (sent w ++ [PUT (assetPath c ∅) (AssetPayload asset)])).
Proof.
  intros HPut H422 Hr Hasset.
  simpl. unfold mbind, M_bind, http_Put. rewrite HPut. simpl.
  rewrite H422. change (422 =? 404)%Z with false. cbv iota.
  rewrite Hr, (lookup_Some_size_pos _ _ _ Hasset), Hasset.
  unfold overwrite_conflict. rewrite H422. reflexivity.
Qed.
End update_calls.

(** ** The properties above at concrete inputs *)

(** X1: [GetInfo] on a client bound to theme 5. *)
Lemma one_request_per_operation_witness :
  ∃ e, report 0 OpGetInfo (mkClient "5" (mkFilter (λ _, false)))
         (start [reply 200 (JObject [("theme", JObject [("id", JInt 5)])])])
       = Returns e (mkWorld [] [GET "/admin/themes/5.json"]).
Proof.
  exact (one_request_per_operation 0 OpGetInfo (mkClient "5" (mkFilter (λ _, false)))
           (start [reply 200 (JObject [("theme", JObject [("id", JInt 5)])])])
           eq_refl).
Defined.

(** X2: a delete on a transport that times out. *)
Lemma transport_error_returned_as_is_witness :
  report 1 (OpDeleteAsset (mkAsset "a.js" "" "" "")) (mkClient "" (mkFilter (λ _, false)))
    (start [inr (TransportError "timeout")])
  = Returns (Some (TransportError "timeout"))
      (mkWorld [] [DELETE "/admin/assets.json?asset%5Bkey%5D=a.js"]).
Proof.
  refine (transport_error_returned_as_is 0 (OpDeleteAsset (mkAsset "a.js" "" "" ""))
            (mkClient "" (mkFilter (λ _, false)))
            (start [inr (TransportError "timeout")]) (TransportError "timeout") [] _ _);
    reflexivity.
Defined.

(** X3: a listing answered with 404 and a body that is not JSON. *)
Lemma status_404_reported_before_decoding_witness :
  report 1 OpGetAllAssets (mkClient "5" (mkFilter (λ _, false)))
    (start [inl (mkResponse 404 (mkBody (inl (Garbage "<html>")) None))])
  = Returns (Some ErrThemeNotFound)
      (mkWorld [] [GET "/admin/themes/5/assets.json?fields=key"]).
Proof.
  refine (status_404_reported_before_decoding 0 OpGetAllAssets
            (mkClient "5" (mkFilter (λ _, false)))
            (start [inl (mkResponse 404 (mkBody (inl (Garbage "<html>")) None))])
            (mkResponse 404 (mkBody (inl (Garbage "<html>")) None)) []
            ErrThemeNotFound _ _ _ _); reflexivity.
Defined.


(** X5: a shop request answered with something that is not JSON. *)
Lemma error_comes_with_zero_value_witness :
  let c := mkClient "" (mkFilter (λ _, false)) in
  let w := start [inl (mkResponse 200 (mkBody (inl (Garbage "<html>")) None))] in
  let w' := mkWorld (conn := script) [] [GET "/meta.json"] in
  GetShop c w = Returns (zero, Some ErrMalformedResponse) w'
  ∧ (zero : Shop) = mkShop 0 "" "" "" "".
Proof.
  intros c w w'.
  assert (GetShop c w = Returns (zero, Some ErrMalformedResponse) w') as Hcall
    by reflexivity.
  split; [exact Hcall|].
  exact (proj1 (error_comes_with_zero_value c w ErrMalformedResponse w') zero Hcall).
Defined.


(** X7: one message of a map of field errors, found in the sentence. *)
Lemma toSentence_keeps_every_item_witness :
  strings_Contains
    (toSentence (toMessages {[ "name" := ["is too short"; "is taken"]; "role" := ["is bad"] ]}))
    ("name" +:+ " " +:+ "is taken") = true.
Proof.
  apply (proj2 toSentence_keeps_every_item _ "name" ["is too short"; "is taken"]).
  - by vm_compute.
  - right. by left.
Defined.

(** X8: a body whose close fails. *)
Lemma unmarshalResponse_error_shapes_witness :
  let body := mkBody (inl (Text (JObject []))) (Some (TransportError "reset")) in
  TransportError "reset" = ErrMalformedResponse
  ∨ Close body = Some (TransportError "reset")
  ∨ ∃ s, s ≠ "" ∧ TransportError "reset" = errors_New s.
Proof.
  intros body.
  exact (proj1 (unmarshalResponse_error_shapes body (zero : Shop))
           (TransportError "reset") eq_refl).
Defined.



(** X13: a listing of three keys, one of them ignored. *)
Lemma listed_keys_are_fetched_and_not_ignored_witness :
  let f := mkFilter (String.eqb "b.css") in
  let assets := [mkAsset "b.css" "" "" ""; mkAsset "a.js.liquid" "" "" "";
                 mkAsset "a.js" "" "" ""] in
  "a.js.liquid" ∈ Key <$> assets ∧ Match f "a.js.liquid" = false.
Proof.
  intros f assets.
  apply (proj1 (listed_keys_are_fetched_and_not_ignored f assets)).
  by left.
Defined.

(** X17: a conflict, then an update that goes through. *)
Lemma UpdateAsset_requests_alternate_witness :
  let c := mkClient "" (mkFilter (λ _, false)) in
  let asset := mkAsset "x.css" "body{}" "" "" in
  let update := PUT "/admin/assets.json" (AssetPayload asset) in
  let delete := DELETE "/admin/assets.json?asset%5Bkey%5D=x.css.liquid" in
  ∃ rounds, rounds < 2
    ∧ [update; delete; update]
      = [] ++ concat (replicate rounds [update; delete]) ++ [update].
Proof.
  intros c asset update delete.
  exact (UpdateAsset_requests_alternate 2 c asset
           (start [reply 422 (asset_errors ["Cannot overwrite generated asset"]);
                   reply 200 (JObject []); reply 200 (JObject [])])
           (mkWorld [] [update; delete; update]) eq_refl).
Defined.

(** X18: errors under ["asset"] and under ["name"], with status 400. *)
Lemma UpdateAsset_reports_asset_messages_alone_witness :
  let c := mkClient "" (mkFilter (λ _, false)) in
  let asset := mkAsset "x.css" "body{}" "" "" in
  let errors := JObject [("errors", JObject [("name", JArray [JString "is bad"]);
                                             ("asset", JArray [JString "is too big";
                                                               JString "is odd"])])] in
  UpdateAsset 1 c asset (start [reply 400 errors])
  = Returns (Some (errors_New "is too big and is odd"))
      (mkWorld [] [PUT "/admin/assets.json" (AssetPayload asset)]).
Proof.
  intros c asset errors.
  refine (proj1 (UpdateAsset_reports_asset_messages_alone 0 c asset
                   (start [reply 400 errors])
                   (mkResponse 400 (mkBody (inl (Text errors)) None)) []
                   (mkAssetResponse zero
                      {[ "name" := ["is bad"]; "asset" := ["is too big"; "is odd"] ]})
                   ["is too big"; "is odd"] _ _ _ _ _)).
  - reflexivity.
  - done.
  - by vm_compute.
  - by vm_compute.
  - by left.
Defined.

(** X19: a 422 answer with [{"errors": {"asset": null}}]. *)
Lemma UpdateAsset_panics_on_empty_asset_messages_witness :
  let c := mkClient "" (mkFilter (λ _, false)) in
  let asset := mkAsset "x.css" "body{}" "" "" in
  let errors := JObject [("errors", JObject [("asset", JNull)])] in
  UpdateAsset 1 c asset (start [reply 422 errors])
  = Panics "index out of range [0] with length 0"
      (mkWorld [] [PUT "/admin/assets.json" (AssetPayload asset)]).
Proof.
  intros c asset errors.
  refine (UpdateAsset_panics_on_empty_asset_messages 0 c asset
            (start [reply 422 errors])
            (mkResponse 422 (mkBody (inl (Text errors)) None)) []
            (mkAssetResponse zero {[ "asset" := [] ]}) _ _ _ _).
  - reflexivity.
  - reflexivity.
  - by vm_compute.
  - by vm_compute.
Defined.
